(** * kosh: the CLARIN-FCS endpoint and the Elasticsearch entry search

    A shallow embedding of [kosh/api/fcs.py] and [kosh/elastic/search.py]:
    the CQL translation [_cql2cqp], the entry search [search.entries], the
    paging result set [KoshFCSSearchResultSet] and the highlight-marker loop
    of [KoshFCSSearchResultSet.write_record].

    Python [str] values are modelled as lists of code points restricted to
    the Latin-1 range, for which Rocq's 8-bit [ascii] is exact; Python [int]
    values are [Z], list and string positions are [nat]; a [dict] with
    string keys is a [gmap string _]; a raised exception is the [Raise]
    case of [result]. *)

From Stdlib Require Import ZArith Ascii String.
From stdpp Require Import base option list strings gmap.

Local Open Scope Z_scope.
Local Open Scope list_scope.

(** ** Python values *)

Module Py.

(** A Python [str], one code point per element. *)
Definition str := list ascii.

(** String literals. *)
Definition s (x : string) : str := list_ascii_of_string x.

(** The exceptions this code can meet. [SRUException] carries the
    diagnostic's URI constant name, its details and its message. *)
Inductive SRUDiagnostics :=
| UNSUPPORTED_BOOLEAN_OPERATOR
| CANNOT_PROCESS_QUERY_REASON_UNKNOWN
| RECORD_NOT_AVAILABLE_IN_THIS_SCHEMA.

Inductive exn :=
| TypeError (msg : string)
| ValueError (msg : string)
| OverflowError (msg : string)
| KeyError (key : string)
| AttributeError (name : string)
| BackendError (msg : string)
| SRUException (code : SRUDiagnostics) (details : option str) (message : option str).

(** The outcome of a call: a returned value or a raised exception. *)
Inductive result (A : Type) :=
| Return (a : A)
| Raise (e : exn).
Arguments Return {A} a.
Arguments Raise {A} e.

#[global] Instance result_ret : MRet result := fun A a => Return a.
#[global] Instance result_bind : MBind result := fun A B k r =>
  match r with
  | Return a => k a
  | Raise e => Raise e
  end.

(** [text.startswith(sub)]. *)
Fixpoint startswith (sub text : str) : bool :=
  match sub, text with
  | [], _ => true
  | _ :: _, [] => false
  | a :: sub', b :: text' =>
      if Ascii.eqb a b then startswith sub' text' else false
  end.

(** [text.find(sub)]: the lowest index where [sub] occurs, [None] for the
    [-1] of Python. *)
Fixpoint find (sub text : str) : option nat :=
  if startswith sub text then Some 0%nat
  else match text with
       | [] => None
       | _ :: text' => S <$> find sub text'
       end.

(** [sub in text]. *)
Definition contains (sub text : str) : bool :=
  match find sub text with Some _ => true | None => false end.

(** [text.index(sub)]: as [find], raising [ValueError] when absent. *)
Definition index (sub text : str) : result nat :=
  match find sub text with
  | Some i => Return i
  | None => Raise (ValueError "substring not found")
  end.

(** [text[:i] + text[j:]] for positions [0 <= i] and [0 <= j]. *)
Definition cut (text : str) (i j : nat) : str := take i text ++ drop j text.

End Py.
Import Py.

(** ** The highlight-marker loop of [write_record] (fcs.py, 164-178) *)

Definition marker_s : str := s "{{{#!HLS!#}}}".
Definition marker_e : str := s "{{{#!HLE!#}}}".

(** One evaluation of the loop body: the two [index] calls, the two
    removals and the appended pair. *)
Definition hits_body (text : str) (hits : list (nat * nat))
  : result (str * list (nat * nat)) :=
  start ← index marker_s text;
  let text := cut text start (start + length marker_s) in
  end_ ← index marker_e text;
  let text := cut text end_ (end_ + length marker_e) in
  Return (text, hits ++ [(start, end_)]).

(** The [while] loop, bounded by [fuel] iterations: [None] when the bound
    is reached before the loop condition turns false. *)
Fixpoint hits_loop (fuel : nat) (text : str) (hits : list (nat * nat))
  : option (result (str * list (nat * nat))) :=
  match fuel with
  | O => None
  | S fuel' =>
      if contains marker_s text && contains marker_e text then
        match hits_body text hits with
        | Return (text', hits') => hits_loop fuel' text' hits'
        | Raise e => Some (Raise e)
        end
      else Some (Return (text, hits))
  end.

(** The loop run from a working text and the pairs found so far; every
    iteration removes both markers, so [length text] iterations are never
    reached (see [hits_loop_terminates]). *)
Definition hits_from (text : str) (hits : list (nat * nat))
  : option (result (str * list (nat * nat))) :=
  hits_loop (S (length text)) text hits.

(** [hits = []] and then the loop: the text and the pairs handed to
    [writeHitsDataView]. *)
Definition write_record_hits (text : str)
  : option (result (str * list (nat * nat))) :=
  hits_from text [].

(** ** More of Python's [str] *)

Module PyStr.

Definition code (c : ascii) : nat := nat_of_ascii c.

(** [c.isspace()] on Latin-1: TAB..CR, FS..US, SPACE, NEL and NBSP. *)
Definition isspace (c : ascii) : bool :=
  let n := code c in
  ((9 <=? n) && (n <=? 13) || (28 <=? n) && (n <=? 32)
   || (n =? 133) || (n =? 160))%nat.

(** [c.isdigit()] for the pattern [\D] on Latin-1: only 0..9 are digits. *)
Definition isdigit (c : ascii) : bool :=
  let n := code c in ((48 <=? n) && (n <=? 57))%nat.

(** [c.lower()] on Latin-1: A..Z and the accented capitals
    U+00C0..U+00DE (the multiplication sign U+00D7 apart) move up by 32. *)
Definition lower_char (c : ascii) : ascii :=
  let n := code c in
  if ((65 <=? n) && (n <=? 90)
      || (192 <=? n) && (n <=? 222) && negb (n =? 215))%nat
  then ascii_of_nat (n + 32) else c.

(** [text.lower()]. *)
Definition lower (text : str) : str := lower_char <$> text.

(** [text.split()] reading [text] with the token [cur] under way: runs of
    whitespace separate the tokens and no token is empty. *)
Fixpoint split_from (cur text : str) : list str :=
  match text with
  | [] => match cur with [] => [] | _ => [cur] end
  | c :: text' =>
      if isspace c
      then match cur with
           | [] => split_from [] text'
           | _ => cur :: split_from [] text'
           end
      else split_from (cur ++ [c]) text'
  end.

(** [text.split()]. *)
Definition split (text : str) : list str := split_from [] text.

Definition char_in (c : ascii) (chars : str) : bool :=
  existsb (Ascii.eqb c) chars.

(** [text.lstrip(chars)]. *)
Fixpoint lstrip (chars text : str) : str :=
  match text with
  | [] => []
  | c :: text' => if char_in c chars then lstrip chars text' else text
  end.

(** [text.rstrip(chars)]. *)
Definition rstrip (chars text : str) : str :=
  reverse (lstrip chars (reverse text)).

(** [text.strip(chars)]. *)
Definition strip (chars text : str) : str := rstrip chars (lstrip chars text).

(** [sep.join(parts)]. *)
Fixpoint join (sep : str) (parts : list str) : str :=
  match parts with
  | [] => []
  | [x] => x
  | x :: rest => x ++ sep ++ join sep rest
  end.

(** [re.split(r"\D", text)] reading [text] with the piece [cur] under way:
    every non-digit ends a piece, and pieces may be empty. *)
Fixpoint split_nondigit_from (cur text : str) : list str :=
  match text with
  | [] => [cur]
  | c :: text' =>
      if isdigit c then split_nondigit_from (cur ++ [c]) text'
      else cur :: split_nondigit_from [] text'
  end.

Definition split_nondigit (text : str) : list str :=
  split_nondigit_from [] text.

(** [int(piece)] for a piece of [split_nondigit], which holds digits only:
    the empty piece is not a number. *)
Definition int (piece : str) : result Z :=
  match piece with
  | [] => Raise (ValueError "invalid literal for int() with base 10")
  | _ =>
      Return (fold_left (fun n c => 10 * n + Z.of_nat (code c - 48)) piece 0)
  end.

(** The characters handed to [strip]: the double and the single quote. *)
Definition quotes : str := ["034"%char; "'"%char].

End PyStr.

(** ** [_cql2cqp] (fcs.py, 49-73) *)

(** The parsed query handed over by the [cql] parser: a boolean triple, a
    search clause, or any other object, of which only its rendering by
    [str()], used in the diagnostic, matters. *)
Inductive CQLNode :=
| CQLTriple (left : CQLNode) (operator_value : str) (right : CQLNode)
| CQLSearchClause (term : str)
| CQLOtherNode (rendering : str).

Record CQLQuery := { parsed_query_root : CQLNode }.

Definition _cql2cqp (query : CQLQuery) : result str :=
  match parsed_query_root query with
  | CQLTriple _ operator _ =>
      Raise (SRUException UNSUPPORTED_BOOLEAN_OPERATOR (Some operator)
               (Some (s "Unsupported Boolean operator: " ++ operator)))
  | CQLSearchClause term =>
      let terms := PyStr.split (PyStr.lower term) in
      match terms with
      | [term0] => Return term0
      | _ =>
          let terms := PyStr.strip PyStr.quotes <$> terms in
          Return (PyStr.join (s " ") terms)
      end
  | CQLOtherNode rendering =>
      Raise (SRUException CANNOT_PROCESS_QUERY_REASON_UNKNOWN
               (Some (s "unknown cql node: " ++ rendering)) None)
  end.

(** ** [datetime] *)

Record datetime := {
  year : Z; month : Z; day : Z;
  hour : Z; minute : Z; second : Z; microsecond : Z
}.

Definition is_leap (y : Z) : bool :=
  (y mod 4 =? 0) && (negb (y mod 100 =? 0) || (y mod 400 =? 0)).

Definition days_in_month (y m : Z) : Z :=
  if m =? 2 then (if is_leap y then 29 else 28)
  else if (m =? 4) || (m =? 6) || (m =? 9) || (m =? 11) then 30
  else 31.

(** Whether [n] fits the C [int] the constructor converts a field to. *)
Definition fits_int (n : Z) : bool :=
  (-2147483648 <=? n) && (n <=? 2147483647).

(** The [datetime] constructor on unpacked integers, in the order of
    CPython: more than eight arguments are refused; the seven fields given
    are converted to C integers; year, month and day are required, the
    time fields default to 0; the date and then the time are range
    checked; and an eighth integer is no [tzinfo]. *)
Definition datetime_new (args : list Z) : result datetime :=
  if 8 <? Z.of_nat (length args)
  then Raise (TypeError "function takes at most 8 arguments")
  else if negb (forallb fits_int (take 7 args))
  then Raise (OverflowError "signed integer is greater than maximum")
  else
    match args with
    | y :: m :: d :: rest =>
        let hh := nth 0 rest 0 in
        let mi := nth 1 rest 0 in
        let ss := nth 2 rest 0 in
        let us := nth 3 rest 0 in
        if negb ((1 <=? y) && (y <=? 9999))
        then Raise (ValueError "year is out of range")
        else if negb ((1 <=? m) && (m <=? 12))
        then Raise (ValueError "month must be in 1..12")
        else if negb ((1 <=? d) && (d <=? days_in_month y m))
        then Raise (ValueError "day is out of range for month")
        else if negb ((0 <=? hh) && (hh <=? 23))
        then Raise (ValueError "hour must be in 0..23")
        else if negb ((0 <=? mi) && (mi <=? 59))
        then Raise (ValueError "minute must be in 0..59")
        else if negb ((0 <=? ss) && (ss <=? 59))
        then Raise (ValueError "second must be in 0..59")
        else if negb ((0 <=? us) && (us <=? 999999))
        then Raise (ValueError "microsecond must be in 0..999999")
        else if 4 <? Z.of_nat (length rest)
        then Raise (TypeError "tzinfo argument must be None or of a tzinfo subclass")
        else Return {| year := y; month := m; day := d; hour := hh;
                       minute := mi; second := ss; microsecond := us |}
    | _ => Raise (TypeError "function missing required argument")
    end.

(** [mapM] for [result]: the first exception ends the traversal, as in a
    list comprehension or an unpacked [map]. *)
Fixpoint traverse {A B} (f : A -> result B) (l : list A) : result (list B) :=
  match l with
  | [] => Return []
  | a :: l' => b ← f a; bs ← traverse f l'; Return (b :: bs)
  end.

(** The [datetime] built from the integers between the non-digits of
    [created] (search.py, 63-65 and 77). *)
Definition parse_created (created : str) : result datetime :=
  args ← traverse PyStr.int (PyStr.split_nondigit created);
  datetime_new args.

(** ** [search.entries] (search.py, 35-82) *)

(** A value of a normalised hit. *)
Inductive value :=
| VStr (x : str)
| VDatetime (d : datetime)
| VNone.

(** A hit as Elasticsearch returns it: [_id], the stored [_source] (its
    fields are strings here) and, when highlighting was asked for and
    matched, the fragments per field. *)
Record rawhit := {
  _id : str;
  _source : gmap string str;
  highlight : option (gmap string (list str))
}.

(** Python's [slice(start, stop)]. *)
Record slice := { slice_start : Z; slice_stop : Z }.

(** What [seq[start:stop]] selects for bounds that are not negative. *)
Definition slice_select {A} (sl : slice) (seq : list A) : list A :=
  take (Z.to_nat (slice_stop sl - slice_start sl))
       (drop (Z.to_nat (slice_start sl)) seq).

(** The [Search] object of elasticsearch_dsl as this code builds it. *)
Record Search := {
  search_index : str;
  search_query : string * (string * str);
  search_highlight : option (string * Z);
  search_slice : option slice
}.

Record Lexicon := { uid : str; pool : str }.

Section Backend.

(** The query types elasticsearch_dsl has registered: [Search.query]
    raises for any other name. *)
Variable query_registered : string -> bool.

(** [Search.execute]: the reply of the index to a request, or the
    exception the client raises. *)
Variable execute : Search -> result (list rawhit).

(** [Search(index=...).query(query_type, **{key: query})]. *)
Definition Search_query (index_ : str) (query_type key : string) (query : str)
  : result Search :=
  if query_registered query_type
  then Return {| search_index := index_;
                 search_query := (query_type, (key, query));
                 search_highlight := None;
                 search_slice := None |}
  else Raise (BackendError "UnknownDslObject").

(** [find.highlight(field, fragment_size=n)]. *)
Definition Search_highlight (find : Search) (field : string) (n : Z) : Search :=
  {| search_index := search_index find;
     search_query := search_query find;
     search_highlight := Some (field, n);
     search_slice := search_slice find |}.

(** [find[start:stop]]: elasticsearch_dsl refuses a negative bound with a
    [ValueError], and otherwise keeps the slice for the request. *)
Definition Search_getitem (find : Search) (start stop : Z) : result Search :=
  if (start <? 0) || (stop <? 0)
  then Raise (ValueError "Search does not support negative slicing.")
  else Return
         {| search_index := search_index find;
            search_query := search_query find;
            search_highlight := search_highlight find;
            search_slice := Some {| slice_start := start;
                                    slice_stop := stop |} |}.

Definition lookup_key {V} (key : string) (d : gmap string V) : result V :=
  match d !! key with
  | Some v => Return v
  | None => Raise (KeyError key)
  end.

(** The dictionary built for a hit on the highlighted path
    (search.py, 60-69). *)
Definition entry_highlighted (field : string) (item : rawhit)
  : result (gmap string value) :=
  created ← lookup_key "created" (_source item);
  created ← parse_created created;
  hl ← match highlight item with
       | Some hl => Return hl
       | None => Raise (KeyError "highlight")
       end;
  fragments ← lookup_key field hl;
  let highlighted := hd VNone ((VStr <$> fragments) ++ [VNone]) in
  Return (<["_highlighted" := highlighted]>
            (<["created" := VDatetime created]>
               (<["id" := VStr (_id item)]> (VStr <$> _source item)))).

(** The dictionary built for a hit on the plain path (search.py, 74-78). *)
Definition entry_plain (item : rawhit) : result (gmap string value) :=
  created ← match _source item !! "created" with
            | Some created => Return created
            | None => Raise (AttributeError "created")
            end;
  created ← parse_created created;
  Return (<["created" := VDatetime created]>
            (<["id" := VStr (_id item)]> (VStr <$> _source item))).

(** The slice [entries] applies: [find[offset:size]]. *)
Definition entries_slice (size offset : Z) : slice :=
  {| slice_start := offset; slice_stop := size |}.

(** The statements before the [try] block (search.py, 49-53): the query
    and, when asked for, its highlighting. *)
Definition entries_find (lexicon : Lexicon) (field : string) (query : str)
    (query_type : string) (highlight : bool) : result Search :=
  find ← Search_query (pool lexicon) query_type
         (if String.eqb field "id" then "_id" else field)%string query;
  Return (if highlight && negb (String.eqb field "id")
          then Search_highlight find field 100000 else find).

(** The request [entries] sends for its arguments, when the query can be
    built and sliced. *)
Definition entries_request (lexicon : Lexicon) (field : string) (query : str)
    (query_type : string) (size offset : Z) (highlight : bool)
  : result Search :=
  find ← entries_find lexicon field query query_type highlight;
  Search_getitem find (slice_start (entries_slice size offset))
                      (slice_stop (entries_slice size offset)).

(** The rest of the [try] block, once the query is sliced: the request is
    executed and its hits are turned into dictionaries. *)
Definition entries_try (find : Search) (field : string) (highlight : bool)
  : result (list (gmap string value)) :=
  results ← execute find;
  if highlight && negb (String.eqb field "id")
  then traverse (entry_highlighted field) results
  else traverse entry_plain results.

(** [search.entries]: its outcome and the requests it has executed on the
    backend, in order. An exception before the [try] block is raised to
    the caller; one of the slicing, inside the block, gives the empty list
    before any request is executed. *)
Definition entries (lexicon : Lexicon) (field : string) (query : str)
    (query_type : string) (size offset : Z) (highlight : bool)
  : result (list (gmap string value)) * list Search :=
  match entries_find lexicon field query query_type highlight with
  | Raise e => (Raise e, [])
  | Return find =>
      match Search_getitem find (slice_start (entries_slice size offset))
                                (slice_stop (entries_slice size offset)) with
      | Raise _ => (Return [], [])
      | Return find =>
          (Return (match entries_try find field highlight with
                   | Return hits => hits
                   | Raise _ => []
                   end),
           [find])
      end
  end.

End Backend.

(** ** [KoshFCSSearchResultSet] (fcs.py, 76-133) *)

(** What the result set reads of an [SRURequest]. *)
Inductive SRUQuery :=
| Query_CQL (query : CQLQuery)
| Query_other (query_type : str).

Record SRURequest := {
  get_query : SRUQuery;
  get_start_record : Z;
  get_maximum_records : Z;
  get_record_schema_identifier : option str
}.

Record KoshFCSSearchResultSet := {
  request : option SRURequest;
  results : option (list (gmap string value));
  resource_pid : str;
  start_record : Z;
  current_record_cursor : Z;
  maximum_records : Z;
  record_count : Z
}.

(** [__init__]. *)
Definition KoshFCSSearchResultSet_init
    (results_ : option (list (gmap string value))) (resource_pid_ : str)
    (request_ : option SRURequest) : KoshFCSSearchResultSet :=
  match request_ with
  | Some req =>
      let start := Z.max 1 (get_start_record req) in
      {| request := request_; results := results_;
         resource_pid := resource_pid_;
         start_record := start;
         current_record_cursor := start - 1;
         maximum_records := start - 1 + get_maximum_records req;
         record_count := get_maximum_records req |}
  | None =>
      {| request := request_; results := results_;
         resource_pid := resource_pid_;
         start_record := 1;
         current_record_cursor := 1 - 1;
         maximum_records := 250;
         record_count := 250 |}
  end.

(** [len(x)] of an optional list: [None] has no length. *)
Definition len {A} (x : option (list A)) : result Z :=
  match x with
  | Some l => Return (Z.of_nat (length l))
  | None => Raise (TypeError "object of type 'NoneType' has no len()")
  end.

(** The truth value of an optional list: [None] and the empty list are
    false. *)
Definition truthy {A} (x : option (list A)) : bool :=
  match x with
  | Some (_ :: _) => true
  | _ => false
  end.

Definition get_total_record_count (self : KoshFCSSearchResultSet) : result Z :=
  if truthy (results self) then len (results self) else Return (-1).

Definition get_record_count (self : KoshFCSSearchResultSet) : result Z :=
  if truthy (results self) then
    n ← len (results self);
    if -1 <? n then
      n ← len (results self);
      if n <? maximum_records self then len (results self)
      else Return (maximum_records self)
    else Return 0
  else Return 0.

Definition set_cursor (self : KoshFCSSearchResultSet) (cursor : Z)
  : KoshFCSSearchResultSet :=
  {| request := request self; results := results self;
     resource_pid := resource_pid self;
     start_record := start_record self;
     current_record_cursor := cursor;
     maximum_records := maximum_records self;
     record_count := record_count self |}.

(** [next_record]: the returned flag and the result set afterwards. *)
Definition next_record (self : KoshFCSSearchResultSet)
  : result (bool * KoshFCSSearchResultSet) :=
  n ← len (results self);
  if current_record_cursor self <? Z.min n (maximum_records self)
  then Return (true, set_cursor self (current_record_cursor self + 1))
  else Return (false, self).

(** [n] calls of [next_record] in a row: the flags they return, in order,
    and the result set afterwards. *)
Fixpoint next_records (n : nat) (self : KoshFCSSearchResultSet)
  : result (list bool * KoshFCSSearchResultSet) :=
  match n with
  | O => Return ([], self)
  | S n' =>
      r ← next_record self;
      rest ← next_records n' r.2;
      Return (r.1 :: rest.1, rest.2)
  end.

(** ** [KoshFCSEndpointSearchEngine.search] (fcs.py, 220-257) *)

Record KoshFCSEndpointSearchEngine := {
  lexicon : Lexicon;
  field : string;
  query_type : string
}.

Section Engine.

Variable query_registered : string -> bool.
Variable execute : Search -> result (list rawhit).

(** [search]: the result set or the exception raised, and the requests
    executed on the backend. [_parse_params] only logs and is left out. *)
Definition search (self : KoshFCSEndpointSearchEngine) (request : SRURequest)
  : result KoshFCSSearchResultSet * list Search :=
  let query :=
    match get_query request with
    | Query_CQL query_in => _cql2cqp query_in
    | Query_other query_type =>
        Raise (SRUException CANNOT_PROCESS_QUERY_REASON_UNKNOWN
                 (Some (s "Queries with queryType '" ++ query_type
                        ++ s "' are not supported by this CLARIN-FCS Endpoint."))
                 None)
    end in
  match query with
  | Raise e => (Raise e, [])
  | Return query =>
      let '(outcome, calls) :=
        entries query_registered execute (lexicon self) (field self) query
                (query_type self) (get_maximum_records request) 0 true in
      let results :=
        match outcome with
        | Return hits => Some hits
        | Raise _ => None
        end in
      (Return (KoshFCSSearchResultSet_init results (uid (lexicon self)) None),
       calls)
  end.

End Engine.

(** ** Vocabulary of the statements *)

(** [sub] occurs in [text] at position [i]. *)
Definition occurs (sub : str) (i : nat) (text : str) : Prop :=
  take (length sub) (drop i text) = sub.

(** An occurrence of [y] starting [d] characters into an occurrence of
    [x]: the tail of [x] from [d] on is the head of [y]. *)
Definition overlap (x y : str) (d : nat) : Prop :=
  drop d x = take (length x - d) y.

Definition overlap_free (x y : str) : Prop :=
  ∀ d, (0 < d < length x)%nat → ¬ overlap x y d.

Definition overlap_freeb (x y : str) : bool :=
  forallb (fun d => negb (bool_decide (drop d x = take (length x - d) y)))
          (seq 1 (length x - 1)).

(** Marked text: each pair is a highlighted piece [h], written between a
    start and an end marker, and the plain piece [p] that follows it. *)
Fixpoint mark (pairs : list (str * str)) : str :=
  match pairs with
  | [] => []
  | (h, p) :: rest => marker_s ++ h ++ marker_e ++ p ++ mark rest
  end.

(** The same pieces without the markers: the content. *)
Fixpoint unmark (pairs : list (str * str)) : str :=
  match pairs with
  | [] => []
  | (h, p) :: rest => h ++ p ++ unmark rest
  end.

(** The positions of the highlighted pieces in the content, which starts
    at position [n]. *)
Fixpoint spans_of (n : nat) (pairs : list (str * str)) : list (nat * nat) :=
  match pairs with
  | [] => []
  | (h, p) :: rest =>
      (n, n + length h)%nat :: spans_of (n + length h + length p) rest
  end.

(** A well-formed input: marker pairs written, one after the other and
    each start marker before its end marker, into a content that is
    ordinary text, that is, spells neither marker. *)
Definition well_marked (text : str) : Prop :=
  ∃ p0 pairs,
    text = p0 ++ mark pairs
    ∧ contains marker_s (p0 ++ unmark pairs) = false
    ∧ contains marker_e (p0 ++ unmark pairs) = false.

Definition span_valid (plain : str) (span : nat * nat) : Prop :=
  (0 ≤ span.1 ∧ span.1 ≤ span.2 ∧ span.2 ≤ length plain)%nat.

(** One iteration of the loop of [write_record], from a working text and
    the pairs found so far to the next ones. *)
Definition loop_step (st st' : str * list (nat * nat)) : Prop :=
  contains marker_s st.1 && contains marker_e st.1 = true
  ∧ hits_body st.1 st.2 = Return st'.

(** The flags of [n] calls of which the first [k] succeed and all later
    ones fail. *)
Definition flags (n k : nat) : list bool :=
  replicate (n `min` k) true ++ replicate (n - k) false.

(** Text laid out as tokens, each followed by its whitespace. *)
Fixpoint spaced (tokens : list (str * str)) : str :=
  match tokens with
  | [] => []
  | (tok, ws) :: rest => tok ++ ws ++ spaced rest
  end.

Definition is_token (tok : str) : Prop :=
  tok ≠ [] ∧ Forall (λ c, PyStr.isspace c = false) tok.

Definition is_whitespace (ws : str) : Prop :=
  Forall (λ c, PyStr.isspace c = true) ws.

(** Every token but the last is followed by some whitespace. *)
Fixpoint separated (tokens : list (str * str)) : Prop :=
  match tokens with
  | [] => True
  | (tok, ws) :: rest =>
      is_token tok ∧ is_whitespace ws ∧ (rest ≠ [] → ws ≠ []) ∧ separated rest
  end.

(** ** Sample values *)

Module Sample.

Definition lex : Lexicon := {| uid := s "lex"; pool := s "lex-pool" |}.

Definition engine : KoshFCSEndpointSearchEngine :=
  {| lexicon := lex; field := "xml"; query_type := "term" |}.

(** A request whose query is the search clause [term]. *)
Definition request_term (term : str) : SRURequest :=
  {| get_query := Query_CQL {| parsed_query_root := CQLSearchClause term |};
     get_start_record := 1; get_maximum_records := 10;
     get_record_schema_identifier := None |}.

(** A request for ten records from the fifth on. *)
Definition request_5_10 : SRURequest :=
  {| get_query := Query_CQL {| parsed_query_root := CQLSearchClause (s "dog") |};
     get_start_record := 5; get_maximum_records := 10;
     get_record_schema_identifier := None |}.

(** The request [entries] sends for [dog], ten records, highlighted. *)
Definition find_dog : Search :=
  {| search_index := s "lex-pool";
     search_query := ("term"%string, ("xml"%string, s "dog"));
     search_highlight := Some ("xml"%string, 100000);
     search_slice := Some {| slice_start := 0; slice_stop := 10 |} |}.

(** A backend that is down, and one with an empty index. *)
Definition backend_down (find : Search) : result (list rawhit) :=
  Raise (BackendError "ConnectionError").

Definition backend_empty (find : Search) : result (list rawhit) :=
  Return [].

Definition all_registered (query_type : string) : bool := true.

(** One stored entry and the reply that returns it, highlighted. *)
Definition hit_dog : rawhit :=
  {| _id := s "2";
     _source := {[ "created"%string := s "2021-03-04 05:06:07";
                   "xml"%string := s "<e>a dog</e>" ]};
     highlight := Some {[ "xml"%string := [s "<e>a <em>dog</em></e>"] ]} |}.

Definition backend_dog (find : Search) : result (list rawhit) :=
  Return [hit_dog].

(** The text of [hit_dog]'s fragment once its tags are gone and its
    markers are in place. *)
Definition text_dog : str := s "a " ++ marker_s ++ s "dog" ++ marker_e.

End Sample.

(** ** More of [KoshFCSSearchResultSet] (fcs.py, 115-159) *)

(** The outcome of the subscription [results[i]]: the item, an
    [IndexError], or the [TypeError] of subscribing [None]. *)
Inductive subscript (A : Type) :=
| Item (a : A)
| IndexError
| NotSubscriptable.
Arguments Item {A} a.
Arguments IndexError {A}.
Arguments NotSubscriptable {A}.

(** [x[i]] for an optional list: a negative index counts from the end. *)
Definition getitem {A} (x : option (list A)) (i : Z) : subscript A :=
  match x with
  | None => NotSubscriptable
  | Some l =>
      let n := Z.of_nat (length l) in
      let i := if i <? 0 then i + n else i in
      if (i <? 0) || (n <=? i) then IndexError
      else match l !! Z.to_nat i with
           | Some a => Item a
           | None => IndexError
           end
  end.

(** The first statement of [write_record]: the hit it is about to write. *)
Definition write_record_result (self : KoshFCSSearchResultSet)
  : subscript (gmap string value) :=
  getitem (results self) (current_record_cursor self - start_record self).

Section Schema.

(** [FCS_NS], the record schema of the endpoint, a constant of the
    [clarin.sru.fcs] library. *)
Variable FCS_NS : str.

Definition get_record_schema_identifier_of (self : KoshFCSSearchResultSet)
  : str :=
  match request self with
  | Some req =>
      match get_record_schema_identifier req with
      | Some (c :: rsid) => c :: rsid
      | _ => FCS_NS
      end
  | None => FCS_NS
  end.

(** [get_surrogate_diagnostic]: it returns [None], or builds the
    diagnostic and raises it; [SRUDiagnostic] is a plain class of the
    [clarin.sru] library and no exception, so that [raise] statement
    raises a [TypeError] instead. *)
Definition get_surrogate_diagnostic (self : KoshFCSSearchResultSet)
  : result (option SRUDiagnostics) :=
  let rsid := get_record_schema_identifier_of self in
  if match rsid with [] => false | _ => true end
     && negb (bool_decide (FCS_NS = rsid))
  then Raise (TypeError "exceptions must derive from BaseException")
  else Return None.

End Schema.

(** ** [search.ids] (search.py, 15-33) *)

Section Ids.

(** [entry(lexicon).schema()]: the document class of the lexicon, of which
    only [mget] is used; it answers a list of identifiers with the
    documents found, [None] standing for a missing one. Both the class
    and its [mget] may raise. *)
Variable schema :
  Lexicon -> result (list str -> result (list (option rawhit))).

(** The truth value elasticsearch_dsl gives a document that was found. *)
Variable document_truth : rawhit -> bool.

(** The dictionary built for a document. *)
Definition ids_entry (item : rawhit) : gmap string value :=
  <["id" := VStr (_id item)]> (VStr <$> _source item).

(** The [if item] of the comprehension. *)
Definition ids_kept (item : option rawhit) : option rawhit :=
  match item with
  | Some doc => if document_truth doc then Some doc else None
  | None => None
  end.

Definition ids (lexicon : Lexicon) (ids_ : list str)
  : result (list (gmap string value)) :=
  find ← schema lexicon;
  Return (match find ids_ with
          | Return items => ids_entry <$> omap ids_kept items
          | Raise _ => []
          end).

End Ids.

(** ** The engine of the endpoint (fcs.py, 292-293 and 428-433) *)

(** [deploy] fixes the field and the query type, and [build_fcs_server]
    hands them to the engine with the lexicon. *)
Definition fcs_search_engine (lexicon_ : Lexicon)
  : KoshFCSEndpointSearchEngine :=
  {| lexicon := lexicon_; field := "xml"; query_type := "term" |}.

(** ** More vocabulary *)

(** The pieces of text between which the markers of marked text are
    written. *)
Definition pieces (p0 : str) (pairs : list (str * str)) : list str :=
  p0 :: concat ((λ hp : str * str, [hp.1; hp.2]) <$> pairs).

(** Well-formedness read off the markers alone: marker pairs written one
    after the other, each start marker before its end marker, between
    pieces of text none of which spells a marker. Unlike [well_marked] it
    does not ask that the pieces, once the markers are gone, spell none
    either. *)
Definition pairs_in_order (text : str) : Prop :=
  ∃ p0 pairs,
    text = p0 ++ mark pairs
    ∧ Forall (λ piece, contains marker_s piece = false
                       ∧ contains marker_e piece = false)
             (pieces p0 pairs).

(** [plain[start:end]] for a span. *)
Definition span_text (plain : str) (span : nat * nat) : str :=
  take (span.2 - span.1) (drop span.1 plain).

(** The decimal digit [d]. *)
Definition digit (d : nat) : ascii := ascii_of_nat (48 + d).

Definition pad2 (n : nat) : str := [digit (n / 10); digit (n mod 10)].

Definition pad4 (n : nat) : str :=
  [digit (n / 1000); digit (n / 100 mod 10);
   digit (n / 10 mod 10); digit (n mod 10)].

(** A creation time written out as the index stores it:
    [YYYY-MM-DD HH:MM:SS]. *)
Definition format_created (d : datetime) : str :=
  pad4 (Z.to_nat (year d)) ++ s "-" ++ pad2 (Z.to_nat (month d)) ++ s "-"
  ++ pad2 (Z.to_nat (day d)) ++ s " " ++ pad2 (Z.to_nat (hour d)) ++ s ":"
  ++ pad2 (Z.to_nat (minute d)) ++ s ":" ++ pad2 (Z.to_nat (second d)).

(** A date of the calendar and a time of the day. *)
Definition valid_datetime (d : datetime) : Prop :=
  1 ≤ year d ≤ 9999 ∧ 1 ≤ month d ≤ 12
  ∧ 1 ≤ day d ≤ days_in_month (year d) (month d)
  ∧ 0 ≤ hour d ≤ 23 ∧ 0 ≤ minute d ≤ 59 ∧ 0 ≤ second d ≤ 59
  ∧ 0 ≤ microsecond d ≤ 999999.

(** The number of calls that succeed among the flags returned. *)
Definition successes (fl : list bool) : nat :=
  length (filter (λ b, b = true) fl).

(** ** More sample values *)

Module Sample2.

(** Three entries as [entries] returns them, told apart by their id. *)
Definition entry_of (id_ : string) : gmap string value :=
  {[ "id"%string := VStr (s id_) ]}.

Definition three : list (gmap string value) :=
  [entry_of "1"; entry_of "2"; entry_of "3"].

(** A hit without a creation time. *)
Definition hit_undated : rawhit :=
  {| _id := s "3"; _source := {[ "xml"%string := s "<e>a cat</e>" ]};
     highlight := Some {[ "xml"%string := [s "<e>a <em>cat</em></e>"] ]} |}.

Definition backend_undated (find : Search) : result (list rawhit) :=
  Return [Sample.hit_dog; hit_undated].

Definition none_registered (query_type : string) : bool := false.

(** A request for another record schema. *)
Definition request_schema (schema : option str) : SRURequest :=
  {| get_query := Query_CQL {| parsed_query_root := CQLSearchClause (s "dog") |};
     get_start_record := 1; get_maximum_records := 10;
     get_record_schema_identifier := schema |}.

(** A request with a boolean query. *)
Definition request_and : SRURequest :=
  {| get_query :=
       Query_CQL {| parsed_query_root :=
                      CQLTriple (CQLSearchClause (s "cat")) (s "and")
                                (CQLSearchClause (s "dog")) |};
     get_start_record := 1; get_maximum_records := 10;
     get_record_schema_identifier := None |}.

Definition fcs_ns : str := s "http://clarin.eu/fcs/resource".

(** A document class whose [mget] finds the sample entry and misses the
    identifier after it. *)
Definition schema_dog (lexicon_ : Lexicon)
  : result (list str -> result (list (option rawhit))) :=
  Return (λ ids_, Return [Some Sample.hit_dog; None]).

Definition truth_nonempty (doc : rawhit) : bool :=
  negb (bool_decide (_source doc = ∅)).

(** A text with one start marker and, after it, one end marker, whose
    content spells an end marker once the start marker is gone. *)
Definition text_collision : str :=
  s "{{{#!H" ++ marker_s ++ s "LE!#}}}" ++ marker_e.

(** The entry [entries] builds for the sample hit. *)
Definition entry_dog : gmap string value :=
  <["_highlighted" := VStr (s "<e>a <em>dog</em></e>")]>
    (<["created" :=
         VDatetime {| year := 2021; month := 3; day := 4; hour := 5;
                      minute := 6; second := 7; microsecond := 0 |}]>
       (<["id" := VStr (s "2")]> (VStr <$> _source Sample.hit_dog))).

End Sample2.

(** * Properties *)

(** ** Searching a string *)

Section StrSearch.
Local Open Scope nat_scope.

Lemma startswith_take sub text :
  startswith sub text = true ↔ take (length sub) text = sub.
Proof.
  revert text. induction sub as [|a sub IH]; intros [|b text]; simpl; try done.
  destruct (Ascii.eqb_spec a b) as [->|Hne].
  - rewrite IH. split; intros H; [by rewrite H | by injection H].
  - split; [done | intros H; injection H; congruence].
Qed.

Lemma startswith_app sub rest : startswith sub (sub ++ rest) = true.
Proof. apply startswith_take. by rewrite take_app_length. Qed.

Lemma startswith_occurs sub i text :
  startswith sub (drop i text) = true ↔ occurs sub i text.
Proof. apply startswith_take. Qed.

Lemma occurs_app_r sub q rest : occurs sub (length q) (q ++ sub ++ rest).
Proof. unfold occurs. by rewrite drop_app_length, take_app_length. Qed.

Lemma occurs_length sub i text :
  0 < length sub → occurs sub i text → i + length sub ≤ length text.
Proof.
  unfold occurs. intros Hpos H. apply (f_equal length) in H.
  rewrite length_take, length_drop in H. lia.
Qed.

Lemma occurs_S sub i c text : occurs sub (S i) (c :: text) ↔ occurs sub i text.
Proof. done. Qed.

(** [find] returns the lowest position at which [sub] occurs. *)
Lemma find_Some sub text i :
  find sub text = Some i ↔
  occurs sub i text ∧ ∀ j, j < i → ¬ occurs sub j text.
Proof.
  revert i. induction text as [|c text IH]; intros i.
  - simpl. destruct (startswith sub []) eqn:Hs.
    + apply (startswith_occurs sub 0) in Hs. split.
      * intros [= <-]. split; [done | lia].
      * intros [Hi Hlow]. destruct i as [|i]; [done |].
        destruct (Hlow 0); [lia | done].
    + split; [done |]. intros [Hi _].
      assert (occurs sub 0 []) as H0.
      { unfold occurs in *. by rewrite drop_nil in *. }
      apply (startswith_occurs sub 0) in H0. simpl in H0. congruence.
  - cbn [find]. destruct (startswith sub (c :: text)) eqn:Hs.
    + apply (startswith_occurs sub 0) in Hs. split.
      * intros [= <-]. split; [done | lia].
      * intros [Hi Hlow]. destruct i as [|i]; [done |].
        destruct (Hlow 0); [lia | done].
    + assert (¬ occurs sub 0 (c :: text)) as H0.
      { intros H. apply (startswith_occurs sub 0) in H. simpl in H. congruence. }
      destruct (find sub text) as [k|] eqn:Hf; simpl.
      * destruct (proj1 (IH k) eq_refl) as [Hk Hlow]. split.
        -- intros [= <-]. split; [done |].
           intros [|j] Hj; [done |]. rewrite occurs_S. apply Hlow. lia.
        -- intros [Hi Hlow']. destruct i as [|i]; [done |]. f_equal.
           destruct (Nat.lt_trichotomy k i) as [Hlt|[->|Hgt]]; [|done|].
           ++ destruct (Hlow' (S k)); [lia | done].
           ++ destruct (Hlow i); [lia | done].
      * split; [done |]. intros [Hi Hlow]. destruct i as [|i]; [done |].
        assert (@None nat = Some i) as Hc; [|done].
        apply IH. split; [done |]. intros j Hj. rewrite <- (occurs_S _ _ c).
        apply Hlow. lia.
Qed.

Lemma find_None sub text :
  find sub text = None ↔ ∀ i, ¬ occurs sub i text.
Proof.
  split.
  - induction text as [|c text IH]; intros Hf i Hi.
    + assert (occurs sub 0 []) as H0.
      { unfold occurs in *. by rewrite drop_nil in *. }
      apply (startswith_occurs sub 0) in H0. simpl in H0, Hf.
      rewrite H0 in Hf. done.
    + cbn [find] in Hf.
      destruct (startswith sub (c :: text)) eqn:Hs; [done |].
      destruct (find sub text) eqn:Hf'; [done |].
      destruct i as [|i].
      * apply (startswith_occurs sub 0) in Hi. simpl in Hi. congruence.
      * by apply (IH eq_refl i).
  - intros H. destruct (find sub text) as [i|] eqn:Hf; [|done].
    apply find_Some in Hf as [Hi _]. by destruct (H i).
Qed.

Lemma contains_true sub text :
  contains sub text = true ↔ ∃ i, occurs sub i text.
Proof.
  unfold contains. destruct (find sub text) as [i|] eqn:Hf.
  - apply find_Some in Hf as [Hi _]. split; [eauto | done].
  - split; [done |]. intros [i Hi].
    by destruct (proj1 (find_None _ _) Hf i).
Qed.

Lemma contains_false sub text :
  contains sub text = false ↔ ∀ i, ¬ occurs sub i text.
Proof.
  rewrite <- find_None. unfold contains.
  destruct (find sub text); split; done.
Qed.


Lemma overlap_freeb_sound x y : overlap_freeb x y = true → overlap_free x y.
Proof.
  unfold overlap_freeb, overlap_free, overlap. rewrite forallb_forall.
  intros H d Hd Heq. specialize (H d).
  rewrite <- list_elem_of_In, elem_of_seq in H.
  rewrite bool_decide_eq_true_2 in H by done.
  assert (negb true = true) as Hc; [apply H; lia | done].
Qed.

(** Two occurrences less than [length x] apart overlap. *)
Lemma occurs_overlap x y i j text :
  occurs x i text → occurs y j text →
  i < j < i + length x → i + length x ≤ j + length y →
  overlap x y (j - i).
Proof.
  unfold occurs, overlap. intros Hx Hy Hij Hlen.
  rewrite <- Hx at 1. rewrite <- Hy.
  rewrite skipn_firstn_comm, drop_drop, take_take.
  replace (i + (j - i)) with j by lia. f_equal. lia.
Qed.

Lemma occurs_split sub i text :
  0 < length sub → occurs sub i text →
  text = take i text ++ sub ++ drop (i + length sub) text
  ∧ length (take i text) = i.
Proof.
  intros Hpos Hocc. pose proof (occurs_length _ _ _ Hpos Hocc) as Hlen.
  split; [|rewrite length_take; lia].
  unfold occurs in Hocc. rewrite <- Hocc at 1.
  rewrite <- drop_drop, !take_drop. done.
Qed.

Lemma occurs_app_l sub j q r :
  j + length sub ≤ length q → occurs sub j (q ++ r) ↔ occurs sub j q.
Proof.
  intros Hle. unfold occurs.
  rewrite drop_app_le by lia. rewrite take_app_le; [done |].
  rewrite length_drop. lia.
Qed.

Lemma occurs_app_ge sub j q r :
  length q ≤ j → occurs sub j (q ++ r) ↔ occurs sub (j - length q) r.
Proof. intros Hle. unfold occurs. by rewrite drop_app_ge by lia. Qed.

(** Removing an occurrence of [x] keeps every occurrence of [y] that
    does not overlap it. *)
Lemma contains_cut x y i text :
  0 < length x → length x = length y → x ≠ y →
  overlap_free x y → overlap_free y x →
  occurs x i text → contains y text = true →
  contains y (cut text i (i + length x)) = true.
Proof.
  intros Hpos Hlen Hne Hxy Hyx Hx Hc.
  apply contains_true in Hc as [j Hy]. apply contains_true.
  pose proof (occurs_length _ _ _ Hpos Hx) as Hxl.
  assert (0 < length y) as Hpos' by lia.
  pose proof (occurs_length _ _ _ Hpos' Hy) as Hyl.
  destruct (occurs_split _ _ _ Hpos Hx) as [Htext Hq].
  unfold cut. set (q := take i text) in *.
  set (r := drop (i + length x) text) in *.
  destruct (decide (j + length y ≤ i)) as [Hl|Hl].
  - exists j. rewrite Htext in Hy. apply occurs_app_l; [lia |].
    by apply (proj1 (occurs_app_l y j q (x ++ r) ltac:(lia))) in Hy.
  - destruct (decide (i + length x ≤ j)) as [Hr|Hr].
    + exists (j - length x). rewrite Htext in Hy.
      apply occurs_app_ge; [lia |].
      apply (proj1 (occurs_app_ge y j q (x ++ r) ltac:(lia))) in Hy.
      apply (proj1 (occurs_app_ge y (j - length q) x r ltac:(lia))) in Hy.
      replace (j - length x - length q) with (j - length q - length x) by lia.
      done.
    + exfalso. destruct (Nat.lt_trichotomy i j) as [Hlt|[->|Hgt]].
      * apply (Hxy (j - i)); [lia |]. eapply occurs_overlap; eauto; lia.
      * unfold occurs in Hx, Hy. rewrite <- Hlen in Hy. congruence.
      * apply (Hyx (i - j)); [lia |]. eapply occurs_overlap; eauto; lia.
Qed.

(** The first occurrence of [m] in [q ++ m ++ rest] is the one written
    there, when [m] does not occur in [q] and cannot overlap itself. *)
Lemma find_app_marker m q rest :
  0 < length m → overlap_free m m → contains m q = false →
  find m (q ++ m ++ rest) = Some (length q).
Proof.
  intros Hpos Hfree Hq. apply find_Some. split; [apply occurs_app_r |].
  intros j Hj Hocc. destruct (decide (j + length m ≤ length q)) as [Hl|Hl].
  - apply occurs_app_l in Hocc; [|done].
    by apply (proj1 (contains_false _ _) Hq j).
  - apply (Hfree (length q - j)); [lia |].
    eapply occurs_overlap; [exact Hocc | apply occurs_app_r | lia | lia].
Qed.

Lemma contains_app_l m q r : contains m (q ++ r) = false → contains m q = false.
Proof.
  rewrite !contains_false. intros H i Hi.
  destruct (decide (i + length m ≤ length q)) as [Hl|Hl].
  - apply (H i). by apply occurs_app_l.
  - destruct (decide (length m = 0)) as [H0|H0].
    + apply (H 0). destruct m; [done | simpl in H0; lia].
    + apply Hl. unfold occurs in Hi. apply (f_equal length) in Hi.
      rewrite length_take, length_drop in Hi. lia.
Qed.

End StrSearch.

(** ** The two markers *)

Section Markers.
Local Open Scope nat_scope.

Lemma marker_s_length : length marker_s = 13.
Proof. reflexivity. Qed.

Lemma marker_e_length : length marker_e = 13.
Proof. reflexivity. Qed.

Lemma marker_s_ne_e : marker_s ≠ marker_e.
Proof. discriminate. Qed.

Lemma marker_s_free : overlap_free marker_s marker_s.
Proof. apply overlap_freeb_sound. vm_compute. reflexivity. Qed.

Lemma marker_e_free : overlap_free marker_e marker_e.
Proof. apply overlap_freeb_sound. vm_compute. reflexivity. Qed.

Lemma marker_s_e_free : overlap_free marker_s marker_e.
Proof. apply overlap_freeb_sound. vm_compute. reflexivity. Qed.

Lemma marker_e_s_free : overlap_free marker_e marker_s.
Proof. apply overlap_freeb_sound. vm_compute. reflexivity. Qed.

End Markers.

(** ** The loop of [write_record] *)

Section Loop.
Local Open Scope nat_scope.

Lemma cut_length m i text :
  0 < length m → occurs m i text →
  length (cut text i (i + length m)) + length m = length text.
Proof.
  intros Hpos Hocc. pose proof (occurs_length _ _ _ Hpos Hocc).
  unfold cut. rewrite length_app, length_take, length_drop. lia.
Qed.

Lemma cut_app m q rest :
  cut (q ++ m ++ rest) (length q) (length q + length m) = q ++ rest.
Proof.
  unfold cut. rewrite take_app_length. f_equal.
  rewrite drop_app_ge by lia.
  replace (length q + length m - length q) with (length m) by lia.
  by rewrite drop_app_length.
Qed.

Lemma find_contains sub text i : find sub text = Some i → contains sub text = true.
Proof. unfold contains. by intros ->. Qed.

(** Under the loop condition the body raises nothing: it removes the
    first start marker, then the first end marker of what is left. *)
Lemma hits_body_ok text hits :
  contains marker_s text = true → contains marker_e text = true →
  ∃ start end_,
    find marker_s text = Some start
    ∧ find marker_e (cut text start (start + length marker_s)) = Some end_
    ∧ hits_body text hits =
        Return (cut (cut text start (start + length marker_s))
                    end_ (end_ + length marker_e),
                hits ++ [(start, end_)])
    ∧ length (cut (cut text start (start + length marker_s))
                  end_ (end_ + length marker_e)) + 26 = length text.
Proof.
  intros Hs He. unfold contains in Hs.
  destruct (find marker_s text) as [start|] eqn:Hfs; [|done].
  pose proof (proj1 (find_Some _ _ _) Hfs) as [Hocc _].
  assert (contains marker_e (cut text start (start + length marker_s)) = true)
    as He'.
  { apply contains_cut; auto using marker_s_ne_e, marker_s_e_free,
      marker_e_s_free. rewrite marker_s_length. lia. }
  unfold contains in He'.
  destruct (find marker_e (cut text start (start + length marker_s)))
    as [end_|] eqn:Hfe; [|done].
  pose proof (proj1 (find_Some _ _ _) Hfe) as [Hocc' _].
  exists start, end_. split; [done |]. split; [done |]. split.
  - unfold hits_body, index. rewrite Hfs. cbn [mbind result_bind].
    rewrite Hfe. done.
  - pose proof (cut_length marker_s start text) as H1.
    pose proof (cut_length marker_e end_
                  (cut text start (start + length marker_s))) as H2.
    rewrite marker_s_length, marker_e_length in *.
    specialize (H1 ltac:(lia) Hocc). specialize (H2 ltac:(lia) Hocc'). lia.
Qed.

Lemma hits_loop_terminates fuel text hits :
  length text < fuel → ∃ text' hits', hits_loop fuel text hits = Some (Return (text', hits')).
Proof.
  revert text hits. induction fuel as [|fuel IH]; intros text hits Hlt; [lia |].
  cbn [hits_loop].
  destruct (contains marker_s text && contains marker_e text) eqn:Hc; [|eauto].
  apply andb_true_iff in Hc as [Hs He].
  destruct (hits_body_ok text hits Hs He) as (st & en & _ & _ & -> & Hlen).
  apply IH. lia.
Qed.

Lemma hits_loop_mono fuel fuel' text hits r :
  hits_loop fuel text hits = Some r → fuel ≤ fuel' →
  hits_loop fuel' text hits = Some r.
Proof.
  revert fuel' text hits. induction fuel as [|fuel IH];
    intros fuel' text hits Hr Hle; [done |].
  destruct fuel' as [|fuel']; [lia |]. cbn [hits_loop] in *.
  destruct (contains marker_s text && contains marker_e text); [|done].
  destruct (hits_body text hits) as [[text' hits']|e]; [|done].
  apply IH; [done | lia].
Qed.

(** The loop as an equation on [hits_from]. *)
Lemma hits_from_unfold text hits :
  hits_from text hits =
    if contains marker_s text && contains marker_e text then
      match hits_body text hits with
      | Return (text', hits') => hits_from text' hits'
      | Raise e => Some (Raise e)
      end
    else Some (Return (text, hits)).
Proof.
  unfold hits_from at 1. cbn [hits_loop].
  destruct (contains marker_s text && contains marker_e text) eqn:Hc; [|done].
  apply andb_true_iff in Hc as [Hs He].
  destruct (hits_body_ok text hits Hs He) as (st & en & _ & _ & -> & Hlen).
  set (text' := cut _ _ _) in *. unfold hits_from.
  destruct (hits_loop_terminates (S (length text')) text' (hits ++ [(st, en)]))
    as (t & h & Heq); [lia |].
  rewrite Heq. eapply hits_loop_mono; [exact Heq | lia].
Qed.

End Loop.

(** ** Marked text *)

Section Marked.
Local Open Scope nat_scope.

Lemma hits_from_marked pairs : ∀ q hits,
  contains marker_s (q ++ unmark pairs) = false →
  contains marker_e (q ++ unmark pairs) = false →
  hits_from (q ++ mark pairs) hits =
    Some (Return (q ++ unmark pairs, hits ++ spans_of (length q) pairs)).
Proof.
  induction pairs as [|[h p] rest IH]; intros q hits Hs He.
  - cbn [mark unmark spans_of] in *. rewrite !app_nil_r in *.
    rewrite hits_from_unfold, Hs. done.
  - cbn [mark unmark spans_of] in *.
    assert (contains marker_s q = false) as Hsq
      by (eapply contains_app_l; exact Hs).
    assert (contains marker_e (q ++ h) = false) as Heq.
    { rewrite (assoc_L (++)) in He. eapply contains_app_l; exact He. }
    assert (find marker_s (q ++ marker_s ++ h ++ marker_e ++ p ++ mark rest)
            = Some (length q)) as Hfs.
    { apply find_app_marker; auto using marker_s_free.
      rewrite marker_s_length; lia. }
    assert (find marker_e ((q ++ h) ++ marker_e ++ p ++ mark rest)
            = Some (length (q ++ h))) as Hfe.
    { apply find_app_marker; auto using marker_e_free.
      rewrite marker_e_length; lia. }
    rewrite hits_from_unfold. rewrite (find_contains _ _ _ Hfs).
    replace (contains marker_e
               (q ++ marker_s ++ h ++ marker_e ++ p ++ mark rest)) with true.
    2:{ symmetry. apply contains_true. exists (length (q ++ marker_s ++ h)).
        replace (q ++ marker_s ++ h ++ marker_e ++ p ++ mark rest)
          with ((q ++ marker_s ++ h) ++ marker_e ++ p ++ mark rest)
          by (by rewrite <- !(assoc_L (++))).
        apply occurs_app_r. }
    cbn [andb]. unfold hits_body, index. rewrite Hfs.
    cbn [mbind result_bind]. rewrite cut_app.
    rewrite (assoc_L (++) q h). rewrite Hfe.
    cbn [mbind result_bind]. rewrite cut_app.
    rewrite (assoc_L (++) (q ++ h) p).
    rewrite IH.
    + rewrite <- !(assoc_L (++)). rewrite !length_app.
      by rewrite (assoc_L Nat.add).
    + by rewrite <- !(assoc_L (++)).
    + by rewrite <- !(assoc_L (++)).
Qed.

Lemma spans_of_valid pairs : ∀ n plain,
  n + length (unmark pairs) ≤ length plain →
  Forall (span_valid plain) (spans_of n pairs).
Proof.
  induction pairs as [|[h p] rest IH]; intros n plain Hle; cbn [spans_of].
  - constructor.
  - cbn [unmark] in Hle. rewrite !length_app in Hle. constructor.
    + unfold span_valid. simpl. lia.
    + apply IH. lia.
Qed.

Lemma hits_from_step st st' :
  loop_step st st' → hits_from st.1 st.2 = hits_from st'.1 st'.2.
Proof.
  intros [Hc Hb]. rewrite hits_from_unfold, Hc, Hb. by destruct st'.
Qed.

Lemma hits_from_steps st st' :
  rtc loop_step st st' → hits_from st.1 st.2 = hits_from st'.1 st'.2.
Proof.
  induction 1 as [|x y z Hxy _ IH]; [done |].
  by rewrite (hits_from_step _ _ Hxy).
Qed.

End Marked.

(** ** What [write_record] hands to the hits data view *)

Section Hits.
Local Open Scope nat_scope.

(** The loop always ends and raises nothing: the second [index] finds its
    marker because removing a start marker cannot destroy an end marker. *)
Lemma write_record_hits_total text :
  ∃ plain spans, write_record_hits text = Some (Return (plain, spans)).
Proof. apply hits_loop_terminates. lia. Qed.

(** The exact outcome on marked text: the content, and the positions of
    its highlighted pieces. *)
Lemma write_record_hits_marked p0 pairs :
  contains marker_s (p0 ++ unmark pairs) = false →
  contains marker_e (p0 ++ unmark pairs) = false →
  write_record_hits (p0 ++ mark pairs)
  = Some (Return (p0 ++ unmark pairs, spans_of (length p0) pairs)).
Proof.
  intros Hs He. unfold write_record_hits.
  by rewrite hits_from_marked, app_nil_l.
Qed.

(** The fragment of the sample entry: one span around its last word. *)
Example write_record_hits_dog :
  write_record_hits Sample.text_dog = Some (Return (s "a dog", [(2, 5)])).
Proof. vm_compute. reflexivity. Qed.

(** Nested pairs are not well-formed, and the first span then ends beyond
    the returned text. *)
Example write_record_hits_nested :
  write_record_hits
    (marker_s ++ s "a" ++ marker_s ++ s "b" ++ marker_e ++ s "c" ++ marker_e)
  = Some (Return (s "abc", [(0, 15); (1, 3)])).
Proof. vm_compute. reflexivity. Qed.

(** Nor is a content that spells a marker once the start marker is gone:
    the span found is then reversed. *)
Example write_record_hits_collision :
  write_record_hits (s "{{{#!H" ++ marker_s ++ s "LE!#}}}" ++ marker_e)
  = Some (Return (marker_e, [(6, 0)])).
Proof. vm_compute. reflexivity. Qed.

(** C7: while the working text holds both markers, an iteration removes
    the first start marker, found at [start], and then the first end
    marker of the text so shortened, found there at [end_], and records
    the pair [(start, end_)]; when a marker kind is missing the loop ends
    with the text and the pairs as they are. With the markers written
    around [b] in [ab c], the outcome is the text [ab c] and the single
    pair [(1, 2)]. *)
Theorem write_record_hits_removes_first_markers :
  (∀ text hits,
     contains marker_s text = true → contains marker_e text = true →
     ∃ start end_,
       (occurs marker_s start text ∧ ∀ j, j < start → ¬ occurs marker_s j text)
       ∧ (let text1 := cut text start (start + length marker_s) in
          (occurs marker_e end_ text1
           ∧ ∀ j, j < end_ → ¬ occurs marker_e j text1)
          ∧ hits_from text hits =
              hits_from (cut text1 end_ (end_ + length marker_e))
                        (hits ++ [(start, end_)])))
  ∧ (∀ text hits,
       contains marker_s text && contains marker_e text = false →
       hits_from text hits = Some (Return (text, hits)))
  ∧ write_record_hits (s "a" ++ marker_s ++ s "b" ++ marker_e ++ s " c")
    = Some (Return (s "ab c", [(1, 2)])).
Proof.
  split; [|split].
  - intros text hits Hs He.
    destruct (hits_body_ok text hits Hs He) as (st & en & Hfs & Hfe & Hb & _).
    exists st, en. split; [by apply find_Some |]. cbn zeta.
    split; [by apply find_Some |].
    rewrite hits_from_unfold at 1. by rewrite Hs, He, Hb.
  - intros text hits Hc. by rewrite hits_from_unfold, Hc.
  - vm_compute. reflexivity.
Qed.

(** The iteration of C7 on the text of its example. *)
Lemma write_record_hits_removes_first_markers_witness :
  ∃ start end_,
    (occurs marker_s start (s "a" ++ marker_s ++ s "b" ++ marker_e ++ s " c")
     ∧ ∀ j, j < start →
         ¬ occurs marker_s j (s "a" ++ marker_s ++ s "b" ++ marker_e ++ s " c"))
    ∧ (let text1 := cut (s "a" ++ marker_s ++ s "b" ++ marker_e ++ s " c")
                        start (start + length marker_s) in
       (occurs marker_e end_ text1
        ∧ ∀ j, j < end_ → ¬ occurs marker_e j text1)
       ∧ hits_from (s "a" ++ marker_s ++ s "b" ++ marker_e ++ s " c") [] =
           hits_from (cut text1 end_ (end_ + length marker_e))
                     ([] ++ [(start, end_)])).
Proof.
  apply (proj1 write_record_hits_removes_first_markers
           (s "a" ++ marker_s ++ s "b" ++ marker_e ++ s " c") []).
  - vm_compute. reflexivity.
  - vm_compute. reflexivity.
Defined.

(** C8, as the code has it: on a well-formed input (marker pairs one
    after the other, each start marker before its end marker) whose
    content, the input without those markers, spells no marker, the loop
    returns a text and spans with
    [0 <= start <= end <= length text] for every span. *)
Theorem write_record_hits_spans_valid text :
  well_marked text →
  ∃ plain spans,
    write_record_hits text = Some (Return (plain, spans))
    ∧ Forall (span_valid plain) spans.
Proof.
  intros (p0 & pairs & -> & Hs & He). eexists _, _. split.
  - by apply write_record_hits_marked.
  - apply spans_of_valid. rewrite length_app. lia.
Qed.

(** C8 on a text with two highlighted pieces. *)
Lemma write_record_hits_spans_valid_witness :
  ∃ plain spans,
    write_record_hits
      (s "a" ++ mark [(s "b", s " c "); (s "dog", s "!")])
    = Some (Return (plain, spans))
    ∧ Forall (span_valid plain) spans.
Proof.
  apply (write_record_hits_spans_valid
           (s "a" ++ mark [(s "b", s " c "); (s "dog", s "!")])).
  exists (s "a"), [(s "b", s " c "); (s "dog", s "!")].
  split; [reflexivity |]. split; vm_compute; reflexivity.
Defined.

(** C10: when the loop, after any number of iterations from the input
    [text], is at a working text [text'] that holds one marker kind
    without the other, it stops there: [text'], the unmatched marker still
    in it, is the returned text, and the pairs [hits'] found before are
    the returned spans, none added. *)
Theorem write_record_hits_unmatched_marker text text' hits' :
  rtc loop_step (text, []) (text', hits') →
  contains marker_s text' ≠ contains marker_e text' →
  write_record_hits text = Some (Return (text', hits'))
  ∧ (contains marker_s text' = true ∨ contains marker_e text' = true).
Proof.
  intros Hsteps Hne. split.
  - unfold write_record_hits.
    pose proof (hits_from_steps _ _ Hsteps) as Heq. cbn [fst snd] in Heq.
    rewrite Heq, hits_from_unfold.
    destruct (contains marker_s text'), (contains marker_e text'); done.
  - destruct (contains marker_s text'), (contains marker_e text'); auto.
Qed.

(** C10 on a text with one pair and a start marker after it. *)
Lemma write_record_hits_unmatched_marker_witness :
  write_record_hits (s "x" ++ marker_s ++ s "y" ++ marker_e ++ s "z" ++ marker_s)
  = Some (Return (s "xyz" ++ marker_s, [(1, 2)]))
  ∧ (contains marker_s (s "xyz" ++ marker_s) = true
     ∨ contains marker_e (s "xyz" ++ marker_s) = true).
Proof.
  apply (write_record_hits_unmatched_marker
           (s "x" ++ marker_s ++ s "y" ++ marker_e ++ s "z" ++ marker_s)
           (s "xyz" ++ marker_s) [(1, 2)]).
  - eapply rtc_l; [|apply rtc_refl]. split; vm_compute; reflexivity.
  - vm_compute. discriminate.
Defined.

End Hits.

(** ** [split], [lower] and [strip] *)

Section Split.
Import PyStr.

Lemma split_from_token tok : ∀ cur rest,
  Forall (λ c, isspace c = false) tok →
  split_from cur (tok ++ rest) = split_from (cur ++ tok) rest.
Proof.
  induction tok as [|c tok IH]; intros cur rest Htok.
  - by rewrite app_nil_r.
  - inversion Htok as [|? ? Hc Htok']; subst. cbn [app split_from].
    rewrite Hc, IH by done. by rewrite <- (assoc_L (++)).
Qed.

Lemma split_from_whitespace ws : ∀ rest,
  is_whitespace ws → split_from [] (ws ++ rest) = split_from [] rest.
Proof.
  induction ws as [|c ws IH]; intros rest Hws; [done |].
  inversion Hws as [|? ? Hc Hws']; subst. cbn [app split_from].
  rewrite Hc. by apply IH.
Qed.

Lemma split_from_end cur ws rest :
  cur ≠ [] → is_whitespace ws → ws ≠ [] →
  split_from cur (ws ++ rest) = cur :: split_from [] rest.
Proof.
  intros Hcur Hws Hne. destruct ws as [|c ws]; [done |].
  inversion Hws as [|? ? Hc Hws']; subst. cbn [app split_from].
  rewrite Hc. destruct cur; [done |]. f_equal. by apply split_from_whitespace.
Qed.

(** [split] returns the tokens of a text, whatever whitespace lies around
    and between them. *)
Lemma split_spaced ws0 tokens :
  is_whitespace ws0 → separated tokens →
  split (ws0 ++ spaced tokens) = tokens.*1.
Proof.
  intros Hws0 Hsep. unfold split. rewrite split_from_whitespace by done.
  clear ws0 Hws0. induction tokens as [|[tok ws] rest IH]; [done |].
  destruct Hsep as ([Hne Htok] & Hws & Hlast & Hsep).
  cbn [spaced fmap list_fmap fst]. rewrite split_from_token by done.
  rewrite app_nil_l. destruct rest as [|next rest].
  - cbn [spaced]. rewrite app_nil_r.
    destruct ws as [|c ws].
    + cbn [split_from]. by destruct tok.
    + rewrite <- (app_nil_r (c :: ws)).
      rewrite split_from_end by done. done.
  - rewrite split_from_end; [| done | done | by apply Hlast].
    f_equal. by apply IH.
Qed.

Lemma lower_length text : length (lower text) = length text.
Proof. unfold lower. by rewrite length_fmap. Qed.

Lemma lstrip_spec chars text :
  ∃ a, text = a ++ lstrip chars text
       ∧ Forall (λ c, char_in c chars = true) a
       ∧ (∀ c rest, lstrip chars text = c :: rest → char_in c chars = false).
Proof.
  induction text as [|c text (a & Ha & Hin & Hhd)].
  - exists []. done.
  - cbn [lstrip]. destruct (char_in c chars) eqn:Hc.
    + exists (c :: a). split; [by rewrite <- app_comm_cons, <- Ha |].
      split; [by constructor | done].
    + exists []. split; [done |]. split; [done |]. by intros ? ? [= <- <-].
Qed.

(** [strip] removes a run of [chars] at either end and nothing else, and
    what it returns neither starts nor ends with one of [chars]. *)
Lemma strip_spec chars text :
  ∃ a b, text = a ++ strip chars text ++ b
         ∧ Forall (λ c, char_in c chars = true) a
         ∧ Forall (λ c, char_in c chars = true) b
         ∧ (∀ c rest, strip chars text = c :: rest → char_in c chars = false)
         ∧ (∀ c rest, strip chars text = rest ++ [c] → char_in c chars = false).
Proof.
  destruct (lstrip_spec chars text) as (a & Ha & Hain & Hhd).
  destruct (lstrip_spec chars (reverse (lstrip chars text)))
    as (b & Hb & Hbin & Hlast).
  fold (rstrip chars (lstrip chars text)) in *.
  exists a, (reverse b). unfold strip, rstrip.
  set (mid := lstrip chars (reverse (lstrip chars text))) in *.
  assert (lstrip chars text = reverse mid ++ reverse b) as Hmid.
  { rewrite <- reverse_app, <- Hb. by rewrite reverse_involutive. }
  split; [by rewrite <- Hmid |]. split; [done |].
  split; [by apply Forall_reverse |]. split.
  - intros c rest Hc. destruct (reverse mid) as [|c' rest'] eqn:Hr; [done |].
    injection Hc as -> ->. apply (Hhd c (rest ++ reverse b)).
    by rewrite Hmid.
  - intros c rest Hc. apply (Hlast c (reverse rest)).
    rewrite <- (reverse_involutive mid), Hc, reverse_app. done.
Qed.

End Split.

(** ** [_cql2cqp] *)

(** C5: on a search clause the term is lowercased and split on
    whitespace; a single token is returned as it is, quotes included;
    otherwise every token is stripped of the quotes at its ends and the
    tokens are joined with single spaces. *)
Theorem _cql2cqp_search_clause :
  (∀ term tok,
     PyStr.split (PyStr.lower term) = [tok] →
     _cql2cqp {| parsed_query_root := CQLSearchClause term |} = Return tok)
  ∧ (∀ term,
       length (PyStr.split (PyStr.lower term)) ≠ 1%nat →
       _cql2cqp {| parsed_query_root := CQLSearchClause term |}
       = Return (PyStr.join (s " ")
                   (PyStr.strip PyStr.quotes
                      <$> PyStr.split (PyStr.lower term))))
  ∧ _cql2cqp {| parsed_query_root := CQLSearchClause (s "  Cat   Dog  ") |}
    = Return (s "cat dog")
  ∧ _cql2cqp {| parsed_query_root :=
                  CQLSearchClause ("034"%char :: s "Cat" ++ ["034"%char]) |}
    = Return ("034"%char :: s "cat" ++ ["034"%char])
  ∧ _cql2cqp {| parsed_query_root :=
                  CQLSearchClause ("034"%char :: s "Cat 'Dog'" ++ ["034"%char]) |}
    = Return (s "cat dog").
Proof.
  split; [|split; [|split; [|split]]]; try (vm_compute; reflexivity).
  - intros term tok Hsplit. unfold _cql2cqp. cbn [parsed_query_root].
    by rewrite Hsplit.
  - intros term Hlen. unfold _cql2cqp. cbn [parsed_query_root].
    by destruct (PyStr.split (PyStr.lower term)) as [|? [|? ?]].
Qed.

(** C5 on a quoted word and on two quoted words. *)
Lemma _cql2cqp_search_clause_witness :
  _cql2cqp {| parsed_query_root := CQLSearchClause (s "'Cat'") |}
  = Return (s "'cat'")
  ∧ _cql2cqp {| parsed_query_root := CQLSearchClause (s "'Cat' 'Dog'") |}
    = Return (s "cat dog").
Proof.
  split.
  - apply (proj1 _cql2cqp_search_clause (s "'Cat'") (s "'cat'")).
    vm_compute. reflexivity.
  - apply (proj1 (proj2 _cql2cqp_search_clause) (s "'Cat' 'Dog'")).
    vm_compute. discriminate.
Defined.

(** A term of whitespace only has no token and translates to the empty
    query. *)
Example _cql2cqp_blank :
  _cql2cqp {| parsed_query_root := CQLSearchClause (s "   ") |} = Return [].
Proof. reflexivity. Qed.

(** C6: a boolean triple, whatever its operator, is refused with the
    unsupported-boolean-operator diagnostic that carries the operator; any
    node that is neither a triple nor a search clause is refused with the
    cannot-process-query diagnostic; and [search] then raises that
    diagnostic without having executed any request on the backend. *)
Theorem _cql2cqp_rejects_other_nodes :
  (∀ left operator right,
     _cql2cqp {| parsed_query_root := CQLTriple left operator right |}
     = Raise (SRUException UNSUPPORTED_BOOLEAN_OPERATOR (Some operator)
                (Some (s "Unsupported Boolean operator: " ++ operator))))
  ∧ (∀ rendering,
       _cql2cqp {| parsed_query_root := CQLOtherNode rendering |}
       = Raise (SRUException CANNOT_PROCESS_QUERY_REASON_UNKNOWN
                  (Some (s "unknown cql node: " ++ rendering)) None))
  ∧ (∀ query_registered execute self left operator right start size schema,
       search query_registered execute self
         {| get_query :=
              Query_CQL {| parsed_query_root := CQLTriple left operator right |};
            get_start_record := start; get_maximum_records := size;
            get_record_schema_identifier := schema |}
       = (Raise (SRUException UNSUPPORTED_BOOLEAN_OPERATOR (Some operator)
                   (Some (s "Unsupported Boolean operator: " ++ operator))),
          []))
  ∧ (∀ query_registered execute self rendering start size schema,
       search query_registered execute self
         {| get_query :=
              Query_CQL {| parsed_query_root := CQLOtherNode rendering |};
            get_start_record := start; get_maximum_records := size;
            get_record_schema_identifier := schema |}
       = (Raise (SRUException CANNOT_PROCESS_QUERY_REASON_UNKNOWN
                   (Some (s "unknown cql node: " ++ rendering)) None),
          [])).
Proof. repeat split. Qed.

(** The three operators of CQL's boolean triples, refused alike. *)
Example _cql2cqp_and_or_not :
  (λ op, _cql2cqp {| parsed_query_root :=
                       CQLTriple (CQLSearchClause (s "cat")) op
                                 (CQLSearchClause (s "dog")) |})
    <$> [s "and"; s "or"; s "not"]
  = (λ op, Raise (SRUException UNSUPPORTED_BOOLEAN_OPERATOR (Some op)
                    (Some (s "Unsupported Boolean operator: " ++ op))))
    <$> [s "and"; s "or"; s "not"].
Proof. reflexivity. Qed.

(** ** [search.entries] *)

Section Entries.

Variable query_registered : string -> bool.
Variable execute : Search -> result (list rawhit).

(** The request sent carries the slice [offset:size]. *)
Lemma entries_request_slice lexicon_ field_ query query_type_ size offset hl find :
  entries_request query_registered lexicon_ field_ query query_type_
    size offset hl = Return find →
  search_slice find = Some (entries_slice size offset).
Proof.
  unfold entries_request.
  destruct (entries_find _ _ _ _ _ _) as [find0|e]; [|done].
  cbn [mbind result_bind]. unfold Search_getitem.
  destruct ((_ <? 0) || (_ <? 0)); [done |]. by intros [= <-].
Qed.

(** [entries] from the request built for its arguments. *)
Lemma entries_of_request lexicon_ field_ query query_type_ size offset hl find :
  entries_request query_registered lexicon_ field_ query query_type_
    size offset hl = Return find →
  entries query_registered execute lexicon_ field_ query query_type_
    size offset hl
  = (Return (match entries_try execute find field_ hl with
             | Return hits => hits
             | Raise _ => []
             end), [find]).
Proof.
  unfold entries_request, entries.
  destruct (entries_find _ _ _ _ _ _) as [find0|e]; [|done].
  cbn [mbind result_bind]. by intros ->.
Qed.

Lemma entries_try_execute_raises find field_ hl e :
  execute find = Raise e → entries_try execute find field_ hl = Raise e.
Proof. unfold entries_try. by intros ->. Qed.

(** Whatever is raised inside the [try] block, by the backend or while a
    hit is turned into a dictionary, [entries] returns the empty list. *)
Lemma entries_try_raises lexicon_ field_ query query_type_ size offset hl find e :
  entries_request query_registered lexicon_ field_ query query_type_
    size offset hl = Return find →
  entries_try execute find field_ hl = Raise e →
  entries query_registered execute lexicon_ field_ query query_type_
    size offset hl = (Return [], [find]).
Proof. intros Hreq Htry. by rewrite (entries_of_request _ _ _ _ _ _ _ _ Hreq), Htry. Qed.

(** A query that cannot be built is raised to the caller, before the
    [try] block and before any request. *)
Lemma entries_unregistered lexicon_ field_ query query_type_ size offset hl :
  query_registered query_type_ = false →
  entries query_registered execute lexicon_ field_ query query_type_
    size offset hl = (Raise (BackendError "UnknownDslObject"), []).
Proof.
  intros Hreg. unfold entries, entries_find, Search_query.
  by rewrite Hreg.
Qed.

End Entries.

(** With the default [offset] of 0, the only one [search] uses, the slice
    is the first [size] records. *)
Lemma entries_slice_offset_0 {A} size (seq : list A) :
  0 ≤ size →
  slice_select (entries_slice size 0) seq = take (Z.to_nat size) seq.
Proof.
  intros Hsize. unfold slice_select, entries_slice. cbn.
  by rewrite Z.sub_0_r.
Qed.

(** A search that finds the sample entry: its fields, its identifier, its
    creation time and its first fragment. *)
Example entries_dog :
  entries Sample.all_registered Sample.backend_dog Sample.lex "xml" (s "dog")
    "term" 10 0 true
  = (Return
       [ <["_highlighted" := VStr (s "<e>a <em>dog</em></e>")]>
           (<["created" :=
                VDatetime {| year := 2021; month := 3; day := 4; hour := 5;
                             minute := 6; second := 7; microsecond := 0 |}]>
              (<["id" := VStr (s "2")]>
                 (VStr <$> _source Sample.hit_dog))) ],
     [Sample.find_dog]).
Proof. reflexivity. Qed.

(** C1, at [offset = 5] and [size = 10]: the slice applied is [5:10], and
    of twenty records it selects the five from the fifth on, whereas the
    window of ten records from the fifth on is [5:15]. *)
Theorem entries_slice_stops_at_size :
  entries_slice 10 5 = {| slice_start := 5; slice_stop := 10 |}
  ∧ entries_request Sample.all_registered Sample.lex "xml" (s "dog") "term"
      10 5 true
    = Return {| search_index := s "lex-pool";
                search_query := ("term"%string, ("xml"%string, s "dog"));
                search_highlight := Some ("xml"%string, 100000);
                search_slice := Some {| slice_start := 5; slice_stop := 10 |} |}
  ∧ slice_select (entries_slice 10 5) (seq 0 20) = [5; 6; 7; 8; 9]%nat
  ∧ slice_select {| slice_start := 5; slice_stop := 5 + 10 |} (seq 0 20)
    = [5; 6; 7; 8; 9; 10; 11; 12; 13; 14]%nat.
Proof. repeat split. Qed.

(** C4: when the backend raises on the request, [entries] returns the
    empty list and raises nothing, and a result set built on that list
    reports the total record count -1; so does the result set that
    [search] returns. *)
Theorem entries_backend_exception
    (query_registered : string -> bool)
    (execute : Search -> result (list rawhit)) :
  (∀ lexicon_ field_ query query_type_ size offset hl find e,
     entries_request query_registered lexicon_ field_ query query_type_
       size offset hl = Return find →
     execute find = Raise e →
     entries query_registered execute lexicon_ field_ query query_type_
       size offset hl = (Return [], [find])
     ∧ ∀ pid req,
         get_total_record_count (KoshFCSSearchResultSet_init (Some []) pid req)
         = Return (-1))
  ∧ (∀ self request cql query find e,
       get_query request = Query_CQL cql →
       _cql2cqp cql = Return query →
       entries_request query_registered (lexicon self) (field self) query
         (query_type self) (get_maximum_records request) 0 true = Return find →
       execute find = Raise e →
       ∃ rs,
         search query_registered execute self request = (Return rs, [find])
         ∧ results rs = Some []
         ∧ get_total_record_count rs = Return (-1)).
Proof.
  split.
  - intros lexicon_ field_ query query_type_ size offset hl find e Hreq Hexe.
    split.
    + eapply entries_try_raises; [done |].
      by apply entries_try_execute_raises.
    + intros pid req. unfold get_total_record_count. by destruct req.
  - intros self request cql query find e Hq Hcql Hreq Hexe.
    unfold search. rewrite Hq, Hcql.
    rewrite (entries_try_raises _ _ _ _ _ _ _ _ _ find e Hreq
               (entries_try_execute_raises _ _ _ _ _ Hexe)).
    by eexists.
Qed.

(** C4 with a backend that is down. *)
Lemma entries_backend_exception_witness :
  (entries Sample.all_registered Sample.backend_down Sample.lex "xml"
     (s "dog") "term" 10 0 true = (Return [], [Sample.find_dog])
   ∧ ∀ pid req,
       get_total_record_count (KoshFCSSearchResultSet_init (Some []) pid req)
       = Return (-1))
  ∧ ∃ rs,
      search Sample.all_registered Sample.backend_down Sample.engine
        (Sample.request_term (s "Dog")) = (Return rs, [Sample.find_dog])
      ∧ results rs = Some []
      ∧ get_total_record_count rs = Return (-1).
Proof.
  split.
  - apply (proj1 (entries_backend_exception Sample.all_registered
                    Sample.backend_down)
             Sample.lex "xml"%string (s "dog") "term"%string 10 0 true
             Sample.find_dog (BackendError "ConnectionError"));
      reflexivity.
  - apply (proj2 (entries_backend_exception Sample.all_registered
                    Sample.backend_down)
             Sample.engine (Sample.request_term (s "Dog"))
             {| parsed_query_root := CQLSearchClause (s "Dog") |} (s "dog")
             Sample.find_dog (BackendError "ConnectionError"));
      reflexivity.
Defined.

(** ** [KoshFCSSearchResultSet] *)

Section ResultSet.

Lemma init_results results_ pid req :
  results (KoshFCSSearchResultSet_init results_ pid req) = results_.
Proof. by destruct req. Qed.

Lemma init_window results_ pid req :
  let rs := KoshFCSSearchResultSet_init results_ pid req in
  1 ≤ start_record rs
  ∧ current_record_cursor rs = start_record rs - 1
  ∧ maximum_records rs = start_record rs - 1 + record_count rs.
Proof. destruct req; cbn; lia. Qed.

Lemma next_record_present self hits :
  results self = Some hits →
  next_record self =
    if current_record_cursor self
         <? Z.min (Z.of_nat (length hits)) (maximum_records self)
    then Return (true, set_cursor self (current_record_cursor self + 1))
    else Return (false, self).
Proof. unfold next_record. by intros ->. Qed.

Lemma next_records_flags n : ∀ self hits,
  results self = Some hits →
  ∃ self',
    next_records n self =
      Return (flags n (Z.to_nat (Z.min (Z.of_nat (length hits))
                                       (maximum_records self)
                                 - current_record_cursor self)),
              self').
Proof.
  induction n as [|n IH]; intros self hits Hres; [by eexists |].
  cbn [next_records]. rewrite (next_record_present _ _ Hres).
  destruct (Z.ltb_spec (current_record_cursor self)
              (Z.min (Z.of_nat (length hits)) (maximum_records self)))
    as [Hlt|Hge]; cbn [mbind result_bind fst snd].
  - destruct (IH (set_cursor self (current_record_cursor self + 1)) hits Hres)
      as [self' ->].
    cbn [mbind result_bind fst snd maximum_records current_record_cursor
         set_cursor].
    exists self'. do 2 f_equal. unfold flags.
    replace (Z.to_nat (Z.min (Z.of_nat (length hits)) (maximum_records self)
                       - current_record_cursor self))
      with (S (Z.to_nat (Z.min (Z.of_nat (length hits)) (maximum_records self)
                         - (current_record_cursor self + 1)))) by lia.
    done.
  - destruct (IH self hits Hres) as [self' ->].
    cbn [mbind result_bind fst snd]. exists self'. do 2 f_equal.
    unfold flags.
    replace (Z.to_nat (Z.min (Z.of_nat (length hits)) (maximum_records self)
                       - current_record_cursor self)) with 0%nat by lia.
    rewrite !Nat.min_0_r, !Nat.sub_0_r. done.
Qed.

(** A failed call leaves the result set as it was: exhaustion is final. *)
Lemma next_record_false self self' :
  next_record self = Return (false, self') → self' = self.
Proof.
  unfold next_record. destruct (len (results self)) as [n|e]; [|done].
  cbn [mbind result_bind].
  destruct (current_record_cursor self <? Z.min n (maximum_records self));
    by intros [= <-].
Qed.

(** [get_record_count]: the smaller of the number of hits and the window
    bound, and 0 without hits. *)
Lemma get_record_count_present self hits :
  results self = Some hits → hits ≠ [] →
  get_record_count self
  = Return (if Z.of_nat (length hits) <? maximum_records self
            then Z.of_nat (length hits) else maximum_records self).
Proof.
  intros Hres Hne. unfold get_record_count. rewrite Hres.
  destruct hits as [|h hits]; [done |]. cbn [truthy len mbind result_bind].
  destruct (Z.ltb_spec (-1) (Z.of_nat (length (h :: hits)))) as [_|Hlt];
    [|lia].
  by destruct (Z.of_nat (length (h :: hits)) <? maximum_records self).
Qed.

(** C3, as the code has it: on a result set built from a present hit
    list of length [N], with the window bound
    [M = start_record - 1 + record_count], the calls of [next_record]
    succeed exactly [max 0 (min N M - (start_record - 1))] times, and
    every later call fails. *)
Theorem next_record_success_count hits pid req n :
  let rs := KoshFCSSearchResultSet_init (Some hits) pid req in
  let N := Z.of_nat (length hits) in
  let M := maximum_records rs in
  M = start_record rs - 1 + record_count rs
  ∧ ∃ rs',
      next_records n rs =
        Return (flags n (Z.to_nat (Z.max 0 (Z.min N M - (start_record rs - 1)))),
                rs').
Proof.
  intros rs N M. destruct (init_window (Some hits) pid req) as (_ & Hc & HM).
  split; [exact HM |].
  destruct (next_records_flags n rs hits (init_results _ _ _)) as [rs' Heq].
  exists rs'. rewrite Heq. fold rs in Hc. rewrite Hc. do 3 f_equal.
  subst N M. lia.
Qed.

(** C3 as stated fails where the start record lies beyond the hits: with
    two hits and ten records asked for from the fifth on, every call
    fails, so the calls succeed 0 times, while
    [min N M - (start_record - 1)] is -2. *)
Lemma next_record_success_count_counterexample :
  let rs := KoshFCSSearchResultSet_init (Some [∅; ∅]) (s "lex")
              (Some Sample.request_5_10) in
  next_records 3 rs = Return ([false; false; false], rs)
  ∧ Z.min (Z.of_nat (length [∅; ∅ : gmap string value])) (maximum_records rs)
    - (start_record rs - 1) = -2.
Proof. split; reflexivity. Qed.

(** Three hits in the default window: three calls succeed, the rest
    fail. *)
Example next_records_default_window :
  ∃ rs',
    next_records 5 (KoshFCSSearchResultSet_init (Some [∅; ∅; ∅]) (s "lex") None)
    = Return ([true; true; true; false; false], rs').
Proof. by eexists. Qed.

(** C2 as stated fails on the empty hit list: its length is 0, and the
    total record count reported is -1. *)
Lemma get_total_record_count_empty_counterexample :
  get_total_record_count (KoshFCSSearchResultSet_init (Some []) (s "lex") None)
  = Return (-1)
  ∧ Z.of_nat (length ([] : list (gmap string value))) = 0.
Proof. split; reflexivity. Qed.

(** C2, as the code has it: the total record count is -1 when the hit
    list is absent or empty, and the length of the list, at least 1, for
    every other hit list. *)
Theorem get_total_record_count_cases results_ pid req :
  (results_ = None ∨ results_ = Some [] →
   get_total_record_count (KoshFCSSearchResultSet_init results_ pid req)
   = Return (-1))
  ∧ (∀ hits, results_ = Some hits → hits ≠ [] →
     get_total_record_count (KoshFCSSearchResultSet_init results_ pid req)
     = Return (Z.of_nat (length hits))
     ∧ 1 ≤ Z.of_nat (length hits)).
Proof.
  unfold get_total_record_count. rewrite init_results. split.
  - by intros [-> | ->].
  - intros [|h hits] -> Hne; [done |]. split; [done |]. cbn [length]. lia.
Qed.

(** C2 amended, on the empty list and on a list of two hits. *)
Lemma get_total_record_count_cases_witness :
  get_total_record_count (KoshFCSSearchResultSet_init (Some []) (s "lex") None)
  = Return (-1)
  ∧ (get_total_record_count
       (KoshFCSSearchResultSet_init (Some [∅; ∅]) (s "lex") None) = Return 2
     ∧ 1 ≤ 2).
Proof.
  split.
  - apply (proj1 (get_total_record_count_cases (Some []) (s "lex") None)).
    by right.
  - apply (proj2 (get_total_record_count_cases (Some [∅; ∅]) (s "lex") None)
             [∅; ∅]); done.
Defined.

(** C9: on a result set built without a hit list, [next_record] raises
    the [TypeError] of [len(None)] instead of returning false, while
    [get_total_record_count] returns -1 and [get_record_count] returns 0. *)
Theorem next_record_absent_results pid req :
  let rs := KoshFCSSearchResultSet_init None pid req in
  next_record rs = Raise (TypeError "object of type 'NoneType' has no len()")
  ∧ get_total_record_count rs = Return (-1)
  ∧ get_record_count rs = Return 0.
Proof.
  intros rs. subst rs.
  unfold next_record, get_total_record_count, get_record_count.
  rewrite init_results. done.
Qed.

End ResultSet.

(** * Further properties *)

(** ** The window of the result set *)

Section ResultSetMore.

Lemma set_cursor_same self :
  set_cursor self (current_record_cursor self) = self.
Proof. by destruct self. Qed.

(** The state after [n] calls: only the cursor has moved, by the number
    of calls that succeeded. *)
Lemma next_records_state n : ∀ self hits,
  results self = Some hits →
  let k := Z.to_nat (Z.min (Z.of_nat (length hits)) (maximum_records self)
                     - current_record_cursor self) in
  next_records n self =
    Return (flags n k,
            set_cursor self
              (current_record_cursor self + Z.of_nat (n `min` k))).
Proof.
  induction n as [|n IH]; intros self hits Hres k.
  - cbn. by rewrite Z.add_0_r, set_cursor_same.
  - cbn [next_records]. rewrite (next_record_present _ _ Hres).
    destruct (Z.ltb_spec (current_record_cursor self)
                (Z.min (Z.of_nat (length hits)) (maximum_records self)))
      as [Hlt|Hge]; cbn [mbind result_bind fst snd].
    + rewrite (IH (set_cursor self (current_record_cursor self + 1)) hits Hres).
      cbn [mbind result_bind fst snd maximum_records current_record_cursor
           set_cursor].
      assert (k = S (Z.to_nat (Z.min (Z.of_nat (length hits))
                                 (maximum_records self)
                               - (current_record_cursor self + 1)))) as ->
        by (subst k; lia).
      unfold flags. do 2 f_equal. cbn [set_cursor request results
        resource_pid start_record maximum_records record_count]. f_equal. lia.
    + rewrite (IH self hits Hres). cbn [mbind result_bind fst snd].
      assert (k = 0%nat) as -> by (subst k; lia).
      replace (Z.to_nat (Z.min (Z.of_nat (length hits)) (maximum_records self)
                         - current_record_cursor self)) with 0%nat by lia.
      unfold flags. by rewrite !Nat.min_0_r, !Nat.sub_0_r.
Qed.

Lemma successes_flags n k : successes (flags n k) = (n `min` k)%nat.
Proof.
  unfold successes, flags. rewrite filter_app, length_app.
  assert (∀ m, filter (λ b, b = true) (replicate m true) = replicate m true)
    as Ht.
  { induction m as [|m IH]; [done |]. cbn [replicate].
    rewrite filter_cons_True by done. by rewrite IH. }
  assert (∀ m, filter (λ b, b = true) (replicate m false) = []) as Hf.
  { induction m as [|m IH]; [done |]. cbn [replicate].
    by rewrite filter_cons_False by done. }
  rewrite Ht, Hf, length_replicate. cbn. lia.
Qed.

(** X1: [get_record_count] is 0 without hits (an absent or an empty hit
    list); for every other hit list it is the smaller of the number of hits
    and [maximum_records], so it never exceeds the total record count,
    which is then the number of hits. *)
Theorem get_record_count_min results_ pid req :
  (results_ = None ∨ results_ = Some [] →
   get_record_count (KoshFCSSearchResultSet_init results_ pid req) = Return 0)
  ∧ (∀ hits, results_ = Some hits → hits ≠ [] →
     get_record_count (KoshFCSSearchResultSet_init results_ pid req)
     = Return (Z.min (Z.of_nat (length hits))
                 (maximum_records
                    (KoshFCSSearchResultSet_init results_ pid req)))
     ∧ get_total_record_count (KoshFCSSearchResultSet_init results_ pid req)
       = Return (Z.of_nat (length hits))
     ∧ Z.min (Z.of_nat (length hits))
         (maximum_records (KoshFCSSearchResultSet_init results_ pid req))
       ≤ Z.of_nat (length hits)).
Proof.
  split.
  - unfold get_record_count. rewrite init_results. by intros [-> | ->].
  - intros hits -> Hne. split; [|split; [|lia]].
    + rewrite (get_record_count_present _ hits); [|apply init_results|done].
      f_equal.
      destruct (Z.ltb_spec (Z.of_nat (length hits))
                  (maximum_records
                     (KoshFCSSearchResultSet_init (Some hits) pid req))); lia.
    + unfold get_total_record_count. rewrite init_results. by destruct hits.
Qed.

(** X1 on three hits asked for two at a time, and on no hits. *)
Lemma get_record_count_min_witness :
  get_record_count
    (KoshFCSSearchResultSet_init (Some []) (s "lex") None) = Return 0
  ∧ get_record_count
      (KoshFCSSearchResultSet_init (Some Sample2.three) (s "lex")
         (Some {| get_query := Query_other (s "fcs"); get_start_record := 1;
                  get_maximum_records := 2;
                  get_record_schema_identifier := None |}))
    = Return 2.
Proof.
  split.
  - apply (proj1 (get_record_count_min (Some []) (s "lex") None)). by right.
  - apply (proj2 (get_record_count_min (Some Sample2.three) (s "lex")
                    (Some {| get_query := Query_other (s "fcs");
                             get_start_record := 1; get_maximum_records := 2;
                             get_record_schema_identifier := None |}))
             Sample2.three); done.
Defined.

(** X2: after any number of calls of [next_record] on a result set built
    on a present hit list, the cursor is [start_record - 1] plus the number
    of calls that succeeded, it lies between [start_record - 1] and the
    larger of that and [min (len hits) maximum_records], and nothing but
    the cursor has changed. *)
Theorem next_records_cursor hits pid req n :
  let rs := KoshFCSSearchResultSet_init (Some hits) pid req in
  ∃ fl rs',
    next_records n rs = Return (fl, rs')
    ∧ current_record_cursor rs'
      = start_record rs - 1 + Z.of_nat (successes fl)
    ∧ start_record rs - 1 ≤ current_record_cursor rs'
    ∧ current_record_cursor rs'
      ≤ Z.max (start_record rs - 1)
              (Z.min (Z.of_nat (length hits)) (maximum_records rs))
    ∧ rs' = set_cursor rs (current_record_cursor rs').
Proof.
  intros rs. destruct (init_window (Some hits) pid req) as (_ & Hc & _).
  fold rs in Hc.
  pose proof (next_records_state n rs hits (init_results _ _ _)) as Hst.
  cbn zeta in Hst. eexists _, _. split; [exact Hst |].
  rewrite successes_flags. cbn [current_record_cursor set_cursor].
  rewrite Hc. repeat split; lia.
Qed.

(** X6: without a request the window is the first 250 hits: of [n] calls
    of [next_record] exactly [min n (min (len hits) 250)] succeed, which for
    enough calls is the record count, and never more than 250. *)
Theorem next_records_default_window_count hits pid n :
  ∃ fl rs',
    next_records n (KoshFCSSearchResultSet_init (Some hits) pid None)
    = Return (fl, rs')
    ∧ get_record_count (KoshFCSSearchResultSet_init (Some hits) pid None)
      = Return (Z.min (Z.of_nat (length hits)) 250)
    ∧ Z.of_nat (successes fl)
      = Z.min (Z.of_nat n) (Z.min (Z.of_nat (length hits)) 250)
    ∧ (successes fl ≤ 250)%nat.
Proof.
  pose proof (next_records_state n
                (KoshFCSSearchResultSet_init (Some hits) pid None) hits eq_refl)
    as Hst. cbn zeta in Hst.
  eexists _, _. split; [exact Hst |]. rewrite successes_flags. split.
  - destruct hits as [|h hits]; [done |].
    rewrite (get_record_count_present _ (h :: hits)) by done.
    cbn [maximum_records KoshFCSSearchResultSet_init]. f_equal.
    destruct (Z.ltb_spec (Z.of_nat (length (h :: hits))) 250); lia.
  - cbn [maximum_records current_record_cursor KoshFCSSearchResultSet_init].
    lia.
Qed.

End ResultSetMore.

(** ** The record [write_record] writes *)

Section WriteRecord.

Lemma getitem_in_range {A} (l : list A) (i : nat) a :
  l !! i = Some a → getitem (Some l) (Z.of_nat i) = Item a.
Proof.
  intros Hl. pose proof (lookup_lt_Some _ _ _ Hl) as Hlt. unfold getitem.
  destruct (Z.ltb_spec (Z.of_nat i) 0) as [|_]; [lia |].
  destruct (Z.ltb_spec (Z.of_nat i) 0) as [|_]; [lia |].
  destruct (Z.leb_spec (Z.of_nat (length l)) (Z.of_nat i)) as [|_]; [lia |].
  cbn [orb]. by rewrite Nat2Z.id, Hl.
Qed.

(** X3: once calls of [next_record] on a fresh result set have succeeded
    [j >= 1] times, the hit [write_record] takes is [hits[j - 1]], always
    within the list: the hits are read from the first on, whatever
    [start_record] is. *)
Theorem write_record_result_after hits pid req n fl rs' :
  next_records n (KoshFCSSearchResultSet_init (Some hits) pid req)
  = Return (fl, rs') →
  (0 < successes fl)%nat →
  ∃ item,
    hits !! (successes fl - 1)%nat = Some item
    ∧ write_record_result rs' = Item item.
Proof.
  intros Hrun Hpos.
  destruct (init_window (Some hits) pid req) as (Hstart & Hc & _).
  pose proof (next_records_state n _ hits (init_results (Some hits) pid req))
    as Hst.
  cbn zeta in Hst. rewrite Hst in Hrun. injection Hrun as <- <-.
  rewrite successes_flags in *.
  set (k := Z.to_nat _) in *.
  assert (n `min` k - 1 < length hits)%nat as Hlt by (subst k; lia).
  destruct (lookup_lt_is_Some_2 hits _ Hlt) as [item Hitem].
  exists item. split; [done |]. unfold write_record_result.
  cbn [results current_record_cursor start_record set_cursor].
  rewrite init_results.
  replace (_ + Z.of_nat (n `min` k) - _)
    with (Z.of_nat (n `min` k - 1)) by lia.
  by apply getitem_in_range.
Qed.

(** X3 on three hits asked for from the second record on: after two
    successful calls the second hit is written. *)
Lemma write_record_result_after_witness :
  ∃ item,
    Sample2.three !! 1%nat = Some item
    ∧ write_record_result
        (set_cursor
           (KoshFCSSearchResultSet_init (Some Sample2.three) (s "lex")
              (Some {| get_query := Query_other (s "fcs");
                       get_start_record := 2; get_maximum_records := 10;
                       get_record_schema_identifier := None |})) 3)
      = Item item.
Proof.
  apply (write_record_result_after Sample2.three (s "lex")
           (Some {| get_query := Query_other (s "fcs");
                    get_start_record := 2; get_maximum_records := 10;
                    get_record_schema_identifier := None |})
           2 [true; true]).
  - reflexivity.
  - vm_compute. lia.
Defined.

(** X4: on a fresh result set, before any call of [next_record], the
    subscript of [write_record] is -1: it takes the last hit, raises
    [IndexError] on an empty hit list, and cannot subscribe an absent
    one. *)
Theorem write_record_result_fresh results_ pid req :
  write_record_result (KoshFCSSearchResultSet_init results_ pid req)
  = match results_ with
    | None => NotSubscriptable
    | Some hits => match last hits with
                   | Some item => Item item
                   | None => IndexError
                   end
    end.
Proof.
  unfold write_record_result. rewrite init_results.
  destruct (init_window results_ pid req) as (_ & -> & _).
  replace (_ - 1 - _) with (-1) by lia.
  destruct results_ as [hits|]; [|done]. unfold getitem.
  destruct (Z.ltb_spec (-1) 0) as [_|]; [|lia].
  destruct hits as [|h hits] using rev_ind; [done |].
  rewrite last_snoc, length_app. cbn [length].
  destruct (Z.ltb_spec (-1 + Z.of_nat (length hits + 1)) 0); [lia |].
  destruct (Z.leb_spec (Z.of_nat (length hits + 1))
              (-1 + Z.of_nat (length hits + 1))); [lia |].
  cbn [orb].
  replace (Z.to_nat (-1 + Z.of_nat (length hits + 1))) with (length hits)
    by lia.
  by rewrite list_lookup_middle.
Qed.

End WriteRecord.

(** ** The record schema *)

(** X5: a result set built without a request, as [search] builds it,
    never raises in [get_surrogate_diagnostic]; one built with a request
    returns [None] when the request names no record schema, an empty one,
    or [FCS_NS]; for every other record schema the call raises, and what
    it raises is the [TypeError] of raising an object that is no
    exception, not the record-not-available diagnostic it has built. *)
Theorem get_surrogate_diagnostic_cases (FCS_NS : str) results_ pid :
  get_surrogate_diagnostic FCS_NS
    (KoshFCSSearchResultSet_init results_ pid None) = Return None
  ∧ (∀ req,
       (get_record_schema_identifier req = None
        ∨ get_record_schema_identifier req = Some []
        ∨ get_record_schema_identifier req = Some FCS_NS →
        get_surrogate_diagnostic FCS_NS
          (KoshFCSSearchResultSet_init results_ pid (Some req)) = Return None)
       ∧ (∀ rsid,
            get_record_schema_identifier req = Some rsid →
            rsid ≠ [] → rsid ≠ FCS_NS →
            get_surrogate_diagnostic FCS_NS
              (KoshFCSSearchResultSet_init results_ pid (Some req))
            = Raise (TypeError "exceptions must derive from BaseException"))).
Proof.
  split.
  - unfold get_surrogate_diagnostic, get_record_schema_identifier_of. cbn.
    rewrite bool_decide_eq_true_2 by done. by rewrite andb_false_r.
  - intros req.
    unfold get_surrogate_diagnostic, get_record_schema_identifier_of.
    cbn [request KoshFCSSearchResultSet_init]. split.
    + intros [-> | [-> | ->]].
      * rewrite bool_decide_eq_true_2 by done. by rewrite andb_false_r.
      * rewrite bool_decide_eq_true_2 by done. by rewrite andb_false_r.
      * destruct FCS_NS as [|c ns]; rewrite bool_decide_eq_true_2 by done;
          by rewrite andb_false_r.
    + intros rsid -> Hne Hns. destruct rsid as [|c rsid]; [done |].
      rewrite bool_decide_eq_false_2 by done. done.
Qed.

(** X5 on a request for the schema of the endpoint, and on one for
    another schema. *)
Lemma get_surrogate_diagnostic_cases_witness :
  get_surrogate_diagnostic Sample2.fcs_ns
    (KoshFCSSearchResultSet_init (Some []) (s "lex")
       (Some (Sample2.request_schema (Some Sample2.fcs_ns)))) = Return None
  ∧ get_surrogate_diagnostic Sample2.fcs_ns
      (KoshFCSSearchResultSet_init (Some []) (s "lex")
         (Some (Sample2.request_schema (Some (s "tei")))))
    = Raise (TypeError "exceptions must derive from BaseException").
Proof.
  split.
  - apply (proj1 (proj2 (get_surrogate_diagnostic_cases Sample2.fcs_ns
                           (Some []) (s "lex"))
                    (Sample2.request_schema (Some Sample2.fcs_ns)))).
    right. right. reflexivity.
  - apply (proj2 (proj2 (get_surrogate_diagnostic_cases Sample2.fcs_ns
                           (Some []) (s "lex"))
                    (Sample2.request_schema (Some (s "tei"))))
             (s "tei")).
    + reflexivity.
    + discriminate.
    + discriminate.
Defined.

(** ** Traversals and creation times *)

Section Traverse.
Context {A B : Type} (f : A → result B).

Lemma traverse_Return l bs :
  traverse f l = Return bs → Forall2 (λ a b, f a = Return b) l bs.
Proof.
  revert bs. induction l as [|a l IH]; intros bs.
  - by intros [= <-].
  - cbn [traverse]. destruct (f a) as [b|e] eqn:Hf; [|done].
    cbn [mbind result_bind]. destruct (traverse f l) as [bs'|e]; [|done].
    cbn [mbind result_bind]. intros [= <-]. constructor; [done | by apply IH].
Qed.

Lemma traverse_Raise l a e :
  a ∈ l → f a = Raise e → ∃ e', traverse f l = Raise e'.
Proof.
  intros Hin Hf. induction l as [|a' l IH]; [by apply elem_of_nil in Hin |].
  cbn [traverse]. apply elem_of_cons in Hin as [<- | Hin].
  - rewrite Hf. by eexists.
  - destruct (f a') as [b|e0]; [|by eexists]. cbn [mbind result_bind].
    destruct (IH Hin) as [e' ->]. by eexists.
Qed.

End Traverse.

Section ParseCreated.
Import PyStr.

Lemma traverse_int_empty pieces :
  [] ∈ pieces →
  traverse int pieces
  = Raise (ValueError "invalid literal for int() with base 10").
Proof.
  induction pieces as [|p pieces IH]; intros Hin;
    [by apply elem_of_nil in Hin |].
  cbn [traverse]. destruct p as [|c p]; [done |].
  apply elem_of_cons in Hin as [Hin | Hin]; [done |].
  cbn [int mbind result_bind]. by rewrite IH.
Qed.

Lemma split_nondigit_from_last cur text c :
  isdigit c = false → [] ∈ split_nondigit_from cur (text ++ [c]).
Proof.
  revert cur. induction text as [|c' text IH]; intros cur Hc.
  - cbn. rewrite Hc. set_solver.
  - cbn [app split_nondigit_from]. destruct (isdigit c'); [by apply IH |].
    apply elem_of_cons. right. by apply IH.
Qed.

(** X18: [parse_created] raises the [ValueError] of [int] on the empty
    string and on every string that starts or ends with a non-digit, such
    as a time with a trailing [Z]. *)
Theorem parse_created_empty_piece :
  parse_created []
  = Raise (ValueError "invalid literal for int() with base 10")
  ∧ (∀ c text, isdigit c = false →
       parse_created (c :: text)
       = Raise (ValueError "invalid literal for int() with base 10"))
  ∧ (∀ c text, isdigit c = false →
       parse_created (text ++ [c])
       = Raise (ValueError "invalid literal for int() with base 10")).
Proof.
  split; [done |]. split.
  - intros c text Hc. unfold parse_created, split_nondigit.
    cbn [split_nondigit_from]. rewrite Hc. done.
  - intros c text Hc. unfold parse_created, split_nondigit.
    rewrite traverse_int_empty; [done |]. by apply split_nondigit_from_last.
Qed.

End ParseCreated.

(** X18 on a time in the layout of ISO 8601 with its [Z]. *)
Lemma parse_created_empty_piece_witness :
  parse_created (s "2021-03-04T05:06:07" ++ ["Z"%char])
  = Raise (ValueError "invalid literal for int() with base 10").
Proof.
  apply (proj2 (proj2 parse_created_empty_piece) "Z"%char
           (s "2021-03-04T05:06:07")).
  reflexivity.
Defined.

Section RoundTrip.
Import PyStr.

Lemma digit_code d : (d < 10)%nat → code (digit d) = (48 + d)%nat.
Proof. intros H. do 10 (destruct d as [|d]; [reflexivity |]). lia. Qed.

Lemma digit_isdigit d : (d < 10)%nat → isdigit (digit d) = true.
Proof. intros H. do 10 (destruct d as [|d]; [reflexivity |]). lia. Qed.

Lemma pad2_digits n : (n < 100)%nat → Forall (λ c, isdigit c = true) (pad2 n).
Proof.
  intros H. unfold pad2.
  repeat constructor; apply digit_isdigit.
  - apply Nat.Div0.div_lt_upper_bound. lia.
  - apply Nat.mod_upper_bound. lia.
Qed.

Lemma pad4_digits n :
  (n < 100 * 100)%nat → Forall (λ c, isdigit c = true) (pad4 n).
Proof.
  intros H. unfold pad4.
  repeat constructor; apply digit_isdigit;
    try (apply Nat.mod_upper_bound; lia).
  apply Nat.Div0.div_lt_upper_bound. lia.
Qed.

Lemma int_pad2 n : (n < 100)%nat → int (pad2 n) = Return (Z.of_nat n).
Proof.
  intros H. unfold pad2, int. cbn [fold_left].
  rewrite !digit_code;
    [| apply Nat.mod_upper_bound; lia
     | apply Nat.Div0.div_lt_upper_bound; lia].
  f_equal. pose proof (Nat.div_mod_eq n 10). lia.
Qed.

Lemma int_pad4 n : (n < 100 * 100)%nat → int (pad4 n) = Return (Z.of_nat n).
Proof.
  intros H. unfold pad4, int. cbn [fold_left].
  rewrite !digit_code;
    try (apply Nat.mod_upper_bound; lia);
    [|apply Nat.Div0.div_lt_upper_bound; lia].
  f_equal.
  pose proof (Nat.div_mod_eq n 10). pose proof (Nat.div_mod_eq (n / 10) 10).
  pose proof (Nat.div_mod_eq (n / 100) 10).
  assert (n / 100 = n / 10 / 10)%nat by (by rewrite Nat.Div0.div_div).
  assert (n / 1000 = n / 100 / 10)%nat by (by rewrite Nat.Div0.div_div).
  assert (n / 1000 < 10)%nat by (apply Nat.Div0.div_lt_upper_bound; lia).
  assert (n / 1000 mod 10 = n / 1000)%nat by (by apply Nat.mod_small).
  lia.
Qed.

Lemma split_nondigit_from_digits ds : ∀ cur,
  Forall (λ c, isdigit c = true) ds →
  split_nondigit_from cur ds = [cur ++ ds].
Proof.
  induction ds as [|c ds IH]; intros cur Hds.
  - by rewrite app_nil_r.
  - inversion Hds as [|? ? Hc Hds']; subst. cbn [split_nondigit_from].
    rewrite Hc, IH by done. by rewrite <- (assoc_L (++)).
Qed.

Lemma split_nondigit_from_group ds c rest : ∀ cur,
  Forall (λ c, isdigit c = true) ds → isdigit c = false →
  split_nondigit_from cur (ds ++ c :: rest)
  = (cur ++ ds) :: split_nondigit_from [] rest.
Proof.
  induction ds as [|c' ds IH]; intros cur Hds Hc.
  - cbn [app split_nondigit_from]. by rewrite Hc, app_nil_r.
  - inversion Hds as [|? ? Hc' Hds']; subst. cbn [app split_nondigit_from].
    rewrite Hc', IH by done. by rewrite <- (assoc_L (++)).
Qed.

(** X19: a valid date and time without microseconds, written out as
    [YYYY-MM-DD HH:MM:SS], is parsed back to itself. *)
Theorem parse_created_format d :
  valid_datetime d → microsecond d = 0 →
  parse_created (format_created d) = Return d.
Proof.
  intros (Hy & Hm & Hd & Hh & Hmi & Hs & _) Hus.
  assert (days_in_month (year d) (month d) ≤ 31) as Hdim.
  { unfold days_in_month. repeat case_match; lia. }
  unfold parse_created, format_created, split_nondigit.
  cbn [s list_ascii_of_string app].
  rewrite (split_nondigit_from_group (pad4 _)); [|apply pad4_digits; lia|done].
  do 4 (rewrite (split_nondigit_from_group (pad2 _));
        [|apply pad2_digits; lia|done]).
  rewrite split_nondigit_from_digits by (apply pad2_digits; lia).
  cbn [traverse app]. rewrite int_pad4 by lia. rewrite !int_pad2 by lia.
  cbn [mbind result_bind]. rewrite !Z2Nat.id by lia.
  assert (∀ x, 0 ≤ x ≤ 9999 → fits_int x = true) as Hfit.
  { intros x Hx. unfold fits_int. apply andb_true_iff.
    split; apply Z.leb_le; lia. }
  unfold datetime_new. cbn [length take forallb nth].
  rewrite !Hfit by lia. cbn [andb negb].
  destruct (Z.ltb_spec 8 (Z.of_nat 6)); [lia |].
  destruct (Z.ltb_spec 4 (Z.of_nat 3)); [lia |].
  destruct (Z.leb_spec 1 (year d)); [|lia].
  destruct (Z.leb_spec (year d) 9999); [|lia].
  destruct (Z.leb_spec 1 (month d)); [|lia].
  destruct (Z.leb_spec (month d) 12); [|lia].
  destruct (Z.leb_spec 1 (day d)); [|lia].
  destruct (Z.leb_spec (day d) (days_in_month (year d) (month d))); [|lia].
  destruct (Z.leb_spec 0 (hour d)); [|lia].
  destruct (Z.leb_spec (hour d) 23); [|lia].
  destruct (Z.leb_spec 0 (minute d)); [|lia].
  destruct (Z.leb_spec (minute d) 59); [|lia].
  destruct (Z.leb_spec 0 (second d)); [|lia].
  destruct (Z.leb_spec (second d) 59); [|lia].
  cbn. destruct d. cbn in *. by subst.
Qed.

(** X19 on the creation time of the sample entry. *)
Lemma parse_created_format_witness :
  parse_created (s "2021-03-04 05:06:07")
  = Return {| year := 2021; month := 3; day := 4; hour := 5; minute := 6;
              second := 7; microsecond := 0 |}.
Proof.
  apply (parse_created_format
           {| year := 2021; month := 3; day := 4; hour := 5; minute := 6;
              second := 7; microsecond := 0 |}).
  - unfold valid_datetime. cbn. lia.
  - reflexivity.
Defined.

End RoundTrip.

(** ** More of [search.entries] *)

Section EntriesMore.

Variable query_registered : string -> bool.
Variable execute : Search -> result (list rawhit).

Lemma entries_cases lexicon_ field_ query query_type_ size offset hl :
  (∃ e, entries_find query_registered lexicon_ field_ query query_type_ hl
        = Raise e
        ∧ query_registered query_type_ = false
        ∧ entries query_registered execute lexicon_ field_ query query_type_
            size offset hl = (Raise e, []))
  ∨ (query_registered query_type_ = true
     ∧ (offset < 0 ∨ size < 0)
     ∧ entries query_registered execute lexicon_ field_ query query_type_
         size offset hl = (Return [], []))
  ∨ (∃ find hits,
       entries_request query_registered lexicon_ field_ query query_type_
         size offset hl = Return find
       ∧ query_registered query_type_ = true
       ∧ 0 ≤ offset ∧ 0 ≤ size
       ∧ entries query_registered execute lexicon_ field_ query query_type_
           size offset hl = (Return hits, [find])).
Proof.
  unfold entries, entries_request, entries_find, Search_query.
  destruct (query_registered query_type_); [|left; by eexists].
  cbn [mbind result_bind mret result_ret]. unfold Search_getitem.
  cbn [slice_start slice_stop entries_slice]. right.
  destruct (Z.ltb_spec offset 0) as [Ho|Ho]; [left; by auto |].
  destruct (Z.ltb_spec size 0) as [Hs|Hs]; [left; by auto |].
  right. cbn [orb]. by eexists _, _.
Qed.

Lemma entry_highlighted_id field_ item e :
  entry_highlighted field_ item = Return e →
  e !! "id"%string = Some (VStr (_id item)).
Proof.
  unfold entry_highlighted, lookup_key.
  destruct (_source item !! "created"%string); [|done].
  cbn [mbind result_bind]. destruct (parse_created _); [|done].
  cbn [mbind result_bind]. destruct (highlight item) as [hl|]; [|done].
  cbn [mbind result_bind]. destruct (hl !! field_); [|done].
  cbn [mbind result_bind]. intros [= <-].
  rewrite !lookup_insert_ne by done. apply lookup_insert_eq.
Qed.

Lemma entry_plain_id item e :
  entry_plain item = Return e → e !! "id"%string = Some (VStr (_id item)).
Proof.
  unfold entry_plain.
  destruct (_source item !! "created"%string); [|done].
  cbn [mbind result_bind]. destruct (parse_created _); [|done].
  cbn [mbind result_bind]. intros [= <-].
  rewrite !lookup_insert_ne by done. apply lookup_insert_eq.
Qed.

Lemma entries_try_ids find field_ hl raw hits :
  execute find = Return raw →
  entries_try execute find field_ hl = Return hits →
  (λ e : gmap string value, e !! "id"%string) <$> hits
  = (λ item, Some (VStr (_id item))) <$> raw.
Proof.
  unfold entries_try. intros -> Htr. cbn [mbind result_bind] in Htr.
  destruct (hl && negb (String.eqb field_ "id")).
  - apply traverse_Return in Htr.
    induction Htr as [|item e raw hits He _ IH]; [done |].
    cbn [fmap list_fmap]. f_equal; [|exact IH].
    by apply (entry_highlighted_id field_).
  - apply traverse_Return in Htr.
    induction Htr as [|item e raw hits He _ IH]; [done |].
    cbn [fmap list_fmap]. f_equal; [|exact IH].
    by apply entry_plain_id.
Qed.

(** X12: [entries] raises only when the query cannot be built, and has
    then executed no request; with a negative [offset] or [size] the
    slicing raises inside the [try] block, and [entries] returns the empty
    list, again without a request; otherwise it returns a list, raising
    nothing, and has executed exactly one request, the one built from its
    arguments. *)
Theorem entries_at_most_one_request lexicon_ field_ query query_type_
    size offset hl :
  (∃ e, entries query_registered execute lexicon_ field_ query query_type_
          size offset hl = (Raise e, [])
        ∧ query_registered query_type_ = false)
  ∨ (entries query_registered execute lexicon_ field_ query query_type_
       size offset hl = (Return [], [])
     ∧ query_registered query_type_ = true
     ∧ (offset < 0 ∨ size < 0))
  ∨ (∃ find hits,
       entries query_registered execute lexicon_ field_ query query_type_
         size offset hl = (Return hits, [find])
       ∧ entries_request query_registered lexicon_ field_ query query_type_
           size offset hl = Return find
       ∧ query_registered query_type_ = true
       ∧ 0 ≤ offset ∧ 0 ≤ size).
Proof.
  destruct (entries_cases lexicon_ field_ query query_type_ size offset hl)
    as [(e & _ & Hreg & Hent)
       | [(Hreg & Hneg & Hent) | (find & hits & Hreq & Hreg & Ho & Hs & Hent)]].
  - left. by exists e.
  - right. left. done.
  - right. right. by exists find, hits.
Qed.

(** A negative [size]: the slicing raises inside the [try] block, and the
    backend is never asked. *)
Example entries_negative_size :
  entries Sample.all_registered Sample.backend_dog Sample.lex "xml" (s "dog")
    "term" (-1) 0 true = (Return [], []).
Proof. reflexivity. Qed.

(** X13: when the backend answers the request, [entries] returns either
    the empty list or one entry per hit of the answer, in the order of the
    answer, each with the identifier of its hit under the key [id]. *)
Theorem entries_all_or_nothing lexicon_ field_ query query_type_ size offset
    hl find raw hits calls :
  entries_request query_registered lexicon_ field_ query query_type_
    size offset hl = Return find →
  execute find = Return raw →
  entries query_registered execute lexicon_ field_ query query_type_
    size offset hl = (hits, calls) →
  calls = [find]
  ∧ (hits = Return []
     ∨ ∃ es, hits = Return es
             ∧ length es = length raw
             ∧ (λ e : gmap string value, e !! "id"%string) <$> es
               = (λ item, Some (VStr (_id item))) <$> raw).
Proof.
  intros Hreq Hexe. rewrite (entries_of_request _ _ _ _ _ _ _ _ _ _ Hreq).
  intros [= <- <-]. split; [done |].
  destruct (entries_try execute find field_ hl) as [es|e] eqn:Htry; [|by left].
  right. exists es. split; [done |].
  pose proof (entries_try_ids _ _ _ _ _ Hexe Htry) as Hids.
  split; [|done]. apply (f_equal length) in Hids.
  by rewrite !length_fmap in Hids.
Qed.

(** X14: one hit of the answer without a creation time, or, on the
    highlighted path, without fragments for the field, and [entries]
    returns the empty list, whatever the other hits are. *)
Theorem entries_one_bad_hit lexicon_ field_ query query_type_ size offset
    hl find raw item :
  entries_request query_registered lexicon_ field_ query query_type_
    size offset hl = Return find →
  execute find = Return raw →
  item ∈ raw →
  _source item !! "created"%string = None
  ∨ (hl = true ∧ field_ ≠ "id"%string
     ∧ (highlight item = None
        ∨ ∃ fragments, highlight item = Some fragments
                       ∧ fragments !! field_ = None)) →
  entries query_registered execute lexicon_ field_ query query_type_
    size offset hl = (Return [], [find]).
Proof.
  intros Hreq Hexe Hin Hbad.
  rewrite (entries_of_request _ _ _ _ _ _ _ _ _ _ Hreq).
  assert (∃ e, entries_try execute find field_ hl = Raise e) as [e ->];
    [|done].
  unfold entries_try. rewrite Hexe. cbn [mbind result_bind].
  destruct Hbad as [Hc | (-> & Hf & Hh)].
  - destruct (hl && negb (String.eqb field_ "id")).
    + eapply traverse_Raise; [exact Hin |].
      unfold entry_highlighted, lookup_key. by rewrite Hc.
    + eapply traverse_Raise; [exact Hin |].
      unfold entry_plain. by rewrite Hc.
  - apply String.eqb_neq in Hf. rewrite Hf. cbn [andb negb].
    destruct (entry_highlighted field_ item) as [e|e] eqn:He;
      [|by eapply traverse_Raise].
    exfalso. revert He. unfold entry_highlighted, lookup_key.
    destruct (_source item !! "created"%string); [|done].
    cbn [mbind result_bind]. destruct (parse_created _); [|done].
    cbn [mbind result_bind].
    destruct Hh as [-> | (fr & -> & Hfr)]; [done |].
    cbn [mbind result_bind]. by rewrite Hfr.
Qed.

(** X15: for the field [id] the [highlight] flag changes nothing: the
    outcome is the same with and without it, and the request, built when
    the query type is registered and neither [offset] nor [size] is
    negative, matches [_id] and asks for no highlighting. *)
Theorem entries_id_ignores_highlight lexicon_ query query_type_ size offset :
  entries query_registered execute lexicon_ "id" query query_type_
    size offset true
  = entries query_registered execute lexicon_ "id" query query_type_
      size offset false
  ∧ (query_registered query_type_ = true → 0 ≤ offset → 0 ≤ size →
     entries_request query_registered lexicon_ "id" query query_type_
       size offset true
     = Return {| search_index := pool lexicon_;
                 search_query := (query_type_, ("_id"%string, query));
                 search_highlight := None;
                 search_slice := Some {| slice_start := offset;
                                         slice_stop := size |} |}).
Proof.
  split; [done |]. intros Hreg Ho Hs.
  unfold entries_request, entries_find, Search_query. rewrite Hreg.
  cbn [mbind result_bind mret result_ret]. unfold Search_getitem.
  cbn [slice_start slice_stop entries_slice String.eqb Ascii.eqb andb negb].
  destruct (Z.ltb_spec offset 0); [lia |].
  destruct (Z.ltb_spec size 0); [lia |]. done.
Qed.

End EntriesMore.

(** X16: the entry built for a hit on the highlighted path holds the
    identifier of the hit under [id], even when a stored field has that
    name, its parsed creation time under [created], the first fragment of
    the field, or [None] when the fragments are an empty list, under
    [_highlighted], and every stored field of another name as it is. *)
Theorem entry_highlighted_fields field_ item e :
  entry_highlighted field_ item = Return e →
  e !! "id"%string = Some (VStr (_id item))
  ∧ (∃ created d,
       _source item !! "created"%string = Some created
       ∧ parse_created created = Return d
       ∧ e !! "created"%string = Some (VDatetime d))
  ∧ (∃ fragments all,
       highlight item = Some all ∧ all !! field_ = Some fragments
       ∧ e !! "_highlighted"%string
         = Some (match fragments with
                 | [] => VNone
                 | first :: _ => VStr first
                 end))
  ∧ (∀ key, key ≠ "id"%string → key ≠ "created"%string →
            key ≠ "_highlighted"%string →
            e !! key = VStr <$> _source item !! key).
Proof.
  intros He. split; [by eapply entry_highlighted_id |].
  revert He. unfold entry_highlighted, lookup_key.
  destruct (_source item !! "created"%string) as [created|] eqn:Hc; [|done].
  cbn [mbind result_bind].
  destruct (parse_created created) as [d|] eqn:Hd; [|done].
  cbn [mbind result_bind]. destruct (highlight item) as [all|]; [|done].
  cbn [mbind result_bind].
  destruct (all !! field_) as [fragments|] eqn:Hf; [|done].
  cbn [mbind result_bind]. intros [= <-]. split; [|split].
  - exists created, d. split; [done |]. split; [done |].
    rewrite lookup_insert_ne by done. apply lookup_insert_eq.
  - exists fragments, all. split; [done |]. split; [done |].
    rewrite lookup_insert_eq. by destruct fragments.
  - intros key H1 H2 H3. rewrite !lookup_insert_ne by done.
    by rewrite lookup_fmap.
Qed.

(** X13 on a backend that answers with the sample entry. *)
Lemma entries_all_or_nothing_witness :
  [Sample.find_dog] = [Sample.find_dog]
  ∧ (Return [Sample2.entry_dog] = Return []
     ∨ ∃ es, Return [Sample2.entry_dog] = Return es
             ∧ length es = length [Sample.hit_dog]
             ∧ (λ e : gmap string value, e !! "id"%string) <$> es
               = (λ item, Some (VStr (_id item))) <$> [Sample.hit_dog]).
Proof.
  apply (entries_all_or_nothing Sample.all_registered Sample.backend_dog
           Sample.lex "xml" (s "dog") "term" 10 0 true Sample.find_dog
           [Sample.hit_dog] (Return [Sample2.entry_dog]) [Sample.find_dog]);
    reflexivity.
Defined.

(** X14 on an answer of the sample entry and a hit without a creation
    time. *)
Lemma entries_one_bad_hit_witness :
  entries Sample.all_registered Sample2.backend_undated Sample.lex "xml"
    (s "dog") "term" 10 0 true
  = (Return [], [Sample.find_dog]).
Proof.
  apply (entries_one_bad_hit Sample.all_registered Sample2.backend_undated
           Sample.lex "xml" (s "dog") "term" 10 0 true Sample.find_dog
           [Sample.hit_dog; Sample2.hit_undated] Sample2.hit_undated).
  - reflexivity.
  - reflexivity.
  - apply elem_of_cons. right. apply elem_of_cons. by left.
  - left. reflexivity.
Defined.

(** X15 on the registered query type [term]. *)
Lemma entries_id_ignores_highlight_witness :
  entries_request Sample.all_registered Sample.lex "id" (s "2") "term" 10 0 true
  = Return {| search_index := s "lex-pool";
              search_query := ("term"%string, ("_id"%string, s "2"));
              search_highlight := None;
              search_slice := Some {| slice_start := 0; slice_stop := 10 |} |}.
Proof.
  apply (proj2 (entries_id_ignores_highlight Sample.all_registered
                  Sample.backend_dog Sample.lex (s "2") "term" 10 0)).
  - reflexivity.
  - lia.
  - lia.
Defined.

(** X16 on the sample hit. *)
Lemma entry_highlighted_fields_witness :
  Sample2.entry_dog !! "id"%string = Some (VStr (s "2"))
  ∧ (∃ created d,
       _source Sample.hit_dog !! "created"%string = Some created
       ∧ parse_created created = Return d
       ∧ Sample2.entry_dog !! "created"%string = Some (VDatetime d))
  ∧ (∃ fragments all,
       highlight Sample.hit_dog = Some all
       ∧ all !! "xml"%string = Some fragments
       ∧ Sample2.entry_dog !! "_highlighted"%string
         = Some (match fragments with
                 | [] => VNone
                 | first :: _ => VStr first
                 end))
  ∧ (∀ key, key ≠ "id"%string → key ≠ "created"%string →
            key ≠ "_highlighted"%string →
            Sample2.entry_dog !! key
            = VStr <$> _source Sample.hit_dog !! key).
Proof.
  apply (entry_highlighted_fields "xml" Sample.hit_dog Sample2.entry_dog).
  reflexivity.
Defined.

(** ** More of [KoshFCSEndpointSearchEngine.search] *)

Lemma _cql2cqp_clause_returns term :
  ∃ query, _cql2cqp {| parsed_query_root := CQLSearchClause term |}
           = Return query.
Proof.
  unfold _cql2cqp. cbn [parsed_query_root].
  destruct (PyStr.split (PyStr.lower term)) as [|? [|? ?]]; by eexists.
Qed.

(** X7: for a search clause [search] never raises, whatever the backend
    does: it returns a result set built without the request, so with
    [start_record] 1 and [maximum_records] 250 whatever record the request
    starts at, having executed at most one request, which asks for the
    records from position 0 up to the maximum of the request. *)
Theorem search_clause_returns query_registered execute self term
    start size schema :
  ∃ rs calls,
    search query_registered execute self
      {| get_query := Query_CQL {| parsed_query_root := CQLSearchClause term |};
         get_start_record := start; get_maximum_records := size;
         get_record_schema_identifier := schema |}
    = (Return rs, calls)
    ∧ (calls = []
       ∨ ∃ find, calls = [find]
                 ∧ search_slice find
                   = Some {| slice_start := 0; slice_stop := size |})
    ∧ request rs = None ∧ start_record rs = 1 ∧ maximum_records rs = 250
    ∧ resource_pid rs = uid (lexicon self).
Proof.
  unfold search. cbn [get_query get_maximum_records].
  destruct (_cql2cqp_clause_returns term) as [query ->].
  destruct (entries_cases query_registered execute (lexicon self)
              (field self) query (query_type self) size 0 true)
    as [(e & _ & _ & ->)
       | [(_ & _ & ->) | (find & hits & Hreq & _ & _ & _ & ->)]].
  - eexists _, _. split; [done |]. split; [by left | done].
  - eexists _, _. split; [done |]. split; [by left | done].
  - eexists _, _. split; [done |]. split; [|done]. right. exists find.
    split; [done |]. by rewrite (entries_request_slice _ _ _ _ _ _ _ _ _ Hreq).
Qed.

(** X8: whatever [search] raises is one of the two query diagnostics,
    raised before any request is executed, and never for a search clause:
    no exception of the backend or of the query builder leaves [search]. *)
Theorem search_raises_only_diagnostics query_registered execute self request
    e calls :
  search query_registered execute self request = (Raise e, calls) →
  calls = []
  ∧ ∃ code details,
      e = SRUException code (Some details)
            (match code with
             | UNSUPPORTED_BOOLEAN_OPERATOR =>
                 Some (s "Unsupported Boolean operator: " ++ details)
             | _ => None
             end)
      ∧ (code = UNSUPPORTED_BOOLEAN_OPERATOR
         ∨ code = CANNOT_PROCESS_QUERY_REASON_UNKNOWN)
      ∧ ∀ cql term, get_query request = Query_CQL cql →
                    parsed_query_root cql ≠ CQLSearchClause term.
Proof.
  unfold search.
  destruct (get_query request) as [[[l op r|term|rendering]]|qt].
  - cbn. intros [= <- <-]. split; [done |].
    exists UNSUPPORTED_BOOLEAN_OPERATOR, op.
    split; [done |]. split; [auto |]. by intros ? ? [= <-].
  - destruct (_cql2cqp_clause_returns term) as [query ->].
    by destruct (entries _ _ _ _ _ _ _ _ _).
  - cbn. intros [= <- <-]. split; [done |].
    exists CANNOT_PROCESS_QUERY_REASON_UNKNOWN,
      (s "unknown cql node: " ++ rendering).
    split; [done |]. split; [auto |]. by intros ? ? [= <-].
  - intros [= <- <-]. split; [done |].
    exists CANNOT_PROCESS_QUERY_REASON_UNKNOWN,
      (s "Queries with queryType '" ++ qt
       ++ s "' are not supported by this CLARIN-FCS Endpoint.").
    split; [done |]. split; [auto |]. done.
Qed.

(** X8 on a boolean query sent to a backend that is down. *)
Lemma search_raises_only_diagnostics_witness :
  @nil Search = []
  ∧ ∃ code details,
      SRUException UNSUPPORTED_BOOLEAN_OPERATOR (Some (s "and"))
        (Some (s "Unsupported Boolean operator: and"))
      = SRUException code (Some details)
          (match code with
           | UNSUPPORTED_BOOLEAN_OPERATOR =>
               Some (s "Unsupported Boolean operator: " ++ details)
           | _ => None
           end)
      ∧ (code = UNSUPPORTED_BOOLEAN_OPERATOR
         ∨ code = CANNOT_PROCESS_QUERY_REASON_UNKNOWN)
      ∧ ∀ cql term, get_query Sample2.request_and = Query_CQL cql →
                    parsed_query_root cql ≠ CQLSearchClause term.
Proof.
  apply (search_raises_only_diagnostics Sample.all_registered
           Sample.backend_down Sample.engine Sample2.request_and).
  reflexivity.
Defined.

(** X9: the endpoint as deployed, where the query type [term] is
    registered, answers a search clause, when the maximum of the request
    is not negative, by executing exactly one request: a [term] query of
    the translated clause on the field [xml] of the lexicon's index,
    highlighted on [xml] with fragments of 100000 characters, for the
    records from 0 up to that maximum; and the result set it returns has
    a hit list. When the maximum is negative no request is executed and
    the hit list is empty. *)
Theorem fcs_search_request query_registered execute lexicon_ term query
    start size schema :
  query_registered "term"%string = true →
  _cql2cqp {| parsed_query_root := CQLSearchClause term |} = Return query →
  (0 ≤ size →
   ∃ rs,
     search query_registered execute (fcs_search_engine lexicon_)
       {| get_query :=
            Query_CQL {| parsed_query_root := CQLSearchClause term |};
          get_start_record := start; get_maximum_records := size;
          get_record_schema_identifier := schema |}
     = (Return rs,
        [ {| search_index := pool lexicon_;
             search_query := ("term"%string, ("xml"%string, query));
             search_highlight := Some ("xml"%string, 100000);
             search_slice :=
               Some {| slice_start := 0; slice_stop := size |} |} ])
     ∧ ∃ hits, results rs = Some hits)
  ∧ (size < 0 →
     ∃ rs,
       search query_registered execute (fcs_search_engine lexicon_)
         {| get_query :=
              Query_CQL {| parsed_query_root := CQLSearchClause term |};
            get_start_record := start; get_maximum_records := size;
            get_record_schema_identifier := schema |}
       = (Return rs, [])
       ∧ results rs = Some []).
Proof.
  intros Hreg Hq. unfold search. cbn [get_query get_maximum_records].
  rewrite Hq. unfold entries, entries_find, Search_query, Search_getitem.
  cbn [fcs_search_engine lexicon field query_type]. rewrite Hreg.
  cbn [mbind result_bind mret result_ret slice_start slice_stop entries_slice
       String.eqb Ascii.eqb andb negb Z.ltb Z.compare orb].
  split; intros Hsize.
  - destruct (Z.ltb_spec size 0); [lia |]. eexists. split; [done |].
    by eexists.
  - destruct (Z.ltb_spec size 0); [|lia]. by eexists.
Qed.

(** X9 on the query [Dog] and a backend that is down, for ten records
    and for the maximum -1. *)
Lemma fcs_search_request_witness :
  (∃ rs,
     search Sample.all_registered Sample.backend_down
       (fcs_search_engine Sample.lex)
       {| get_query :=
            Query_CQL {| parsed_query_root := CQLSearchClause (s "Dog") |};
          get_start_record := 3; get_maximum_records := 10;
          get_record_schema_identifier := None |}
     = (Return rs,
        [ {| search_index := pool Sample.lex;
             search_query := ("term"%string, ("xml"%string, s "dog"));
             search_highlight := Some ("xml"%string, 100000);
             search_slice :=
               Some {| slice_start := 0; slice_stop := 10 |} |} ])
     ∧ ∃ hits, results rs = Some hits)
  ∧ (∃ rs,
       search Sample.all_registered Sample.backend_down
         (fcs_search_engine Sample.lex)
         {| get_query :=
              Query_CQL {| parsed_query_root := CQLSearchClause (s "Dog") |};
            get_start_record := 3; get_maximum_records := -1;
            get_record_schema_identifier := None |}
       = (Return rs, [])
       ∧ results rs = Some []).
Proof.
  split.
  - apply (proj1 (fcs_search_request Sample.all_registered Sample.backend_down
                    Sample.lex (s "Dog") (s "dog") 3 10 None
                    eq_refl eq_refl)).
    lia.
  - apply (proj2 (fcs_search_request Sample.all_registered Sample.backend_down
                    Sample.lex (s "Dog") (s "dog") 3 (-1) None
                    eq_refl eq_refl)).
    lia.
Defined.

(** X10: when the query type of the engine is not registered, [search]
    still returns a result set, having executed no request; its hit list
    is absent, so it reports the total record count -1 and the record
    count 0, and [next_record] and [write_record] raise on it. *)
Theorem search_unregistered_query_type query_registered execute self term
    start size schema :
  query_registered (query_type self) = false →
  ∃ rs,
    search query_registered execute self
      {| get_query := Query_CQL {| parsed_query_root := CQLSearchClause term |};
         get_start_record := start; get_maximum_records := size;
         get_record_schema_identifier := schema |}
    = (Return rs, [])
    ∧ results rs = None
    ∧ get_total_record_count rs = Return (-1)
    ∧ get_record_count rs = Return 0
    ∧ next_record rs
      = Raise (TypeError "object of type 'NoneType' has no len()")
    ∧ write_record_result rs = NotSubscriptable.
Proof.
  intros Hreg. unfold search. cbn [get_query get_maximum_records].
  destruct (_cql2cqp_clause_returns term) as [query ->].
  rewrite entries_unregistered by done. by eexists.
Qed.

(** X10 on an installation without any registered query type. *)
Lemma search_unregistered_query_type_witness :
  ∃ rs,
    search Sample2.none_registered Sample.backend_dog Sample.engine
      {| get_query :=
           Query_CQL {| parsed_query_root := CQLSearchClause (s "dog") |};
         get_start_record := 1; get_maximum_records := 10;
         get_record_schema_identifier := None |}
    = (Return rs, [])
    ∧ results rs = None
    ∧ get_total_record_count rs = Return (-1)
    ∧ get_record_count rs = Return 0
    ∧ next_record rs
      = Raise (TypeError "object of type 'NoneType' has no len()")
    ∧ write_record_result rs = NotSubscriptable.
Proof.
  apply (search_unregistered_query_type Sample2.none_registered
           Sample.backend_dog Sample.engine (s "dog") 1 10 None).
  reflexivity.
Defined.

(** X11: when the backend answers the request of a search clause with
    hits that each have a creation time that parses and fragments for the
    field, the result set [search] returns holds their entries, one per
    hit and in order, and, unless the answer is empty, reports their number
    as the total record count. *)
Theorem search_hits query_registered execute self term query
    start size schema find raw :
  field self ≠ "id"%string →
  _cql2cqp {| parsed_query_root := CQLSearchClause term |} = Return query →
  entries_request query_registered (lexicon self) (field self) query
    (query_type self) size 0 true = Return find →
  execute find = Return raw →
  Forall (λ item, ∃ e, entry_highlighted (field self) item = Return e) raw →
  ∃ rs es,
    search query_registered execute self
      {| get_query := Query_CQL {| parsed_query_root := CQLSearchClause term |};
         get_start_record := start; get_maximum_records := size;
         get_record_schema_identifier := schema |}
    = (Return rs, [find])
    ∧ results rs = Some es
    ∧ Forall2 (λ item e, entry_highlighted (field self) item = Return e) raw es
    ∧ (raw ≠ [] →
       get_total_record_count rs = Return (Z.of_nat (length raw))).
Proof.
  intros Hf Hq Hreq Hexe Hall. unfold search.
  cbn [get_query get_maximum_records]. rewrite Hq.
  rewrite (entries_of_request _ _ _ _ _ _ _ _ _ _ Hreq).
  unfold entries_try. rewrite Hexe. cbn [mbind result_bind].
  apply String.eqb_neq in Hf. rewrite Hf. cbn [andb negb].
  assert (∃ es, traverse (entry_highlighted (field self)) raw = Return es)
    as [es Hes].
  { clear Hexe. induction Hall as [|item raw [e He] _ [es IH]]; [by eexists |].
    cbn [traverse]. rewrite He, IH. by eexists. }
  rewrite Hes. exists (KoshFCSSearchResultSet_init (Some es)
                         (uid (lexicon self)) None), es.
  split; [done |]. split; [done |].
  pose proof (traverse_Return _ _ _ Hes) as H2. split; [done |].
  intros Hne. unfold get_total_record_count. cbn [results
    KoshFCSSearchResultSet_init].
  rewrite (Forall2_length _ _ _ H2).
  destruct H2; [done |]. done.
Qed.

(** X11 on a backend that answers with the sample entry. *)
Lemma search_hits_witness :
  ∃ rs es,
    search Sample.all_registered Sample.backend_dog Sample.engine
      {| get_query :=
           Query_CQL {| parsed_query_root := CQLSearchClause (s "Dog") |};
         get_start_record := 1; get_maximum_records := 10;
         get_record_schema_identifier := None |}
    = (Return rs, [Sample.find_dog])
    ∧ results rs = Some es
    ∧ Forall2 (λ item e, entry_highlighted (field Sample.engine) item
                         = Return e) [Sample.hit_dog] es
    ∧ ([Sample.hit_dog] ≠ [] →
       get_total_record_count rs
       = Return (Z.of_nat (length [Sample.hit_dog]))).
Proof.
  apply (search_hits Sample.all_registered Sample.backend_dog Sample.engine
           (s "Dog") (s "dog") 1 10 None Sample.find_dog [Sample.hit_dog]).
  - discriminate.
  - reflexivity.
  - reflexivity.
  - reflexivity.
  - constructor; [|constructor]. exists Sample2.entry_dog. reflexivity.
Defined.

(** ** [search.ids] *)

(** X20: [ids] raises only what the document class raises when it is
    fetched; an exception of [mget] gives the empty list; and otherwise
    it returns one entry per document that was found and counts as true,
    in the order of the answer, each with the identifier of its document
    under [id], so never more entries than the answer has places. *)
Theorem ids_outcomes
    (schema : Lexicon -> result (list str -> result (list (option rawhit))))
    (document_truth : rawhit -> bool) lexicon_ ids_ :
  (∀ e, schema lexicon_ = Raise e →
        ids schema document_truth lexicon_ ids_ = Raise e)
  ∧ (∀ find e, schema lexicon_ = Return find → find ids_ = Raise e →
       ids schema document_truth lexicon_ ids_ = Return [])
  ∧ (∀ find items, schema lexicon_ = Return find →
       find ids_ = Return items →
       ∃ es, ids schema document_truth lexicon_ ids_ = Return es
             ∧ (λ e : gmap string value, e !! "id"%string) <$> es
               = (λ item, Some (VStr (_id item)))
                 <$> omap (ids_kept document_truth) items
             ∧ (length es ≤ length items)%nat).
Proof.
  unfold ids. split; [by intros e -> |]. split.
  { intros find e ->. cbn [mbind result_bind]. by intros ->. }
  intros find items ->. cbn [mbind result_bind]. intros ->. eexists.
  split; [done |]. rewrite length_fmap. split.
  - rewrite <- list_fmap_compose. apply list_fmap_ext. intros i item _.
    unfold ids_entry. cbn. apply lookup_insert_eq.
  - induction items as [|item items IH]; [done |]. cbn [omap list_omap].
    destruct (ids_kept document_truth item); cbn [length]; lia.
Qed.

(** X20 on a document class that finds the sample entry and misses
    another. *)
Lemma ids_outcomes_witness :
  ∃ es, ids Sample2.schema_dog Sample2.truth_nonempty Sample.lex
          [s "2"; s "9"] = Return es
        ∧ (λ e : gmap string value, e !! "id"%string) <$> es
          = (λ item, Some (VStr (_id item)))
            <$> omap (ids_kept Sample2.truth_nonempty)
                  [Some Sample.hit_dog; None]
        ∧ (length es ≤ length [Some Sample.hit_dog; None])%nat.
Proof.
  apply (proj2 (proj2 (ids_outcomes Sample2.schema_dog Sample2.truth_nonempty
                         Sample.lex [s "2"; s "9"]))
           (λ ids_, Return [Some Sample.hit_dog; None])
           [Some Sample.hit_dog; None]);
    reflexivity.
Defined.

(** ** More of the loop of [write_record] *)

Section HitsMore.
Local Open Scope nat_scope.

Lemma spans_of_text pairs : ∀ q,
  span_text (q ++ unmark pairs) <$> spans_of (length q) pairs = pairs.*1.
Proof.
  induction pairs as [|[h p] rest IH]; intros q; [done |].
  cbn [spans_of unmark fmap list_fmap fst]. f_equal.
  - unfold span_text. cbn [fst snd]. rewrite drop_app_length.
    replace (length q + length h - length q) with (length h) by lia.
    by rewrite take_app_length.
  - specialize (IH (q ++ h ++ p)). rewrite !length_app in IH.
    rewrite <- !(assoc_L (++)) in IH. rewrite (assoc_L Nat.add) in IH.
    exact IH.
Qed.

(** X21: on marked text whose content spells no marker, the text
    returned is the content and the spans, read as slices of it, are
    exactly the highlighted pieces, in order. *)
Theorem write_record_hits_span_texts p0 pairs :
  contains marker_s (p0 ++ unmark pairs) = false →
  contains marker_e (p0 ++ unmark pairs) = false →
  ∃ spans,
    write_record_hits (p0 ++ mark pairs)
    = Some (Return (p0 ++ unmark pairs, spans))
    ∧ span_text (p0 ++ unmark pairs) <$> spans = pairs.*1.
Proof.
  intros Hs He. exists (spans_of (length p0) pairs).
  split; [by apply write_record_hits_marked | apply spans_of_text].
Qed.

Lemma hits_loop_account fuel : ∀ text hits plain spans,
  hits_loop fuel text hits = Some (Return (plain, spans)) →
  length plain + 26 * length spans = length text + 26 * length hits
  ∧ contains marker_s plain && contains marker_e plain = false
  ∧ hits `prefix_of` spans.
Proof.
  induction fuel as [|fuel IH]; intros text hits plain spans; [done |].
  cbn [hits_loop].
  destruct (contains marker_s text && contains marker_e text) eqn:Hc.
  - apply andb_true_iff in Hc as [Hs He].
    destruct (hits_body_ok text hits Hs He) as (st & en & _ & _ & -> & Hlen).
    intros Hrun. apply IH in Hrun as (Hacc & Hpost & Hpre).
    rewrite length_app in Hacc. cbn [length] in Hacc.
    split; [lia |]. split; [done |].
    etrans; [|exact Hpre]. by apply prefix_app_r.
  - intros [= <- <-]. split; [lia |]. split; [done |]. done.
Qed.

(** X22: on every input the loop ends, and the text it returns is
    shorter than the input by the two markers (26 characters) for every
    span returned: nothing but markers is removed, and one pair of them
    per span. *)
Theorem write_record_hits_length text :
  ∃ plain spans,
    write_record_hits text = Some (Return (plain, spans))
    ∧ length plain + (length marker_s + length marker_e) * length spans
      = length text.
Proof.
  destruct (write_record_hits_total text) as (plain & spans & Hrun).
  exists plain, spans. split; [done |].
  apply hits_loop_account in Hrun as (Hacc & _). cbn [length] in Hacc.
  rewrite marker_s_length, marker_e_length. lia.
Qed.

(** X23: on every input the text returned lacks one of the two markers,
    and the loop run on it again returns it unchanged, with no span. *)
Theorem write_record_hits_fixed_point text :
  ∃ plain spans,
    write_record_hits text = Some (Return (plain, spans))
    ∧ (contains marker_s plain = false ∨ contains marker_e plain = false)
    ∧ write_record_hits plain = Some (Return (plain, [])).
Proof.
  destruct (write_record_hits_total text) as (plain & spans & Hrun).
  exists plain, spans. split; [done |].
  pose proof (hits_loop_account _ _ _ _ _ Hrun) as (_ & Hpost & _).
  split; [by apply andb_false_iff |].
  unfold write_record_hits. by rewrite hits_from_unfold, Hpost.
Qed.

End HitsMore.

(** X21 on the text of the sample fragment. *)
Lemma write_record_hits_span_texts_witness :
  ∃ spans,
    write_record_hits (s "a " ++ mark [(s "dog", [])])
    = Some (Return (s "a " ++ unmark [(s "dog", [])], spans))
    ∧ span_text (s "a " ++ unmark [(s "dog", [])]) <$> spans
      = [(s "dog", @nil ascii)].*1.
Proof.
  apply (write_record_hits_span_texts (s "a ") [(s "dog", [])]);
    vm_compute; reflexivity.
Defined.

(** ** More of [_cql2cqp] *)

Section TranslateMore.
Import PyStr.

Lemma isspace_lower_char c : isspace (lower_char c) = isspace c.
Proof. destruct c as [[] [] [] [] [] [] [] []]; reflexivity. Qed.

Lemma lower_char_idemp c : lower_char (lower_char c) = lower_char c.
Proof. destruct c as [[] [] [] [] [] [] [] []]; reflexivity. Qed.

Lemma lower_app a b : lower (a ++ b) = lower a ++ lower b.
Proof. apply fmap_app. Qed.

Lemma lower_idemp text : lower (lower text) = lower text.
Proof.
  unfold lower. rewrite <- list_fmap_compose. apply list_fmap_ext.
  intros i c _. apply lower_char_idemp.
Qed.

Lemma is_token_lower tok : is_token tok → is_token (lower tok).
Proof.
  intros [Hne Hns]. split; [by destruct tok |].
  unfold lower. apply Forall_fmap. eapply Forall_impl; [exact Hns |].
  intros c Hc. cbn. by rewrite isspace_lower_char.
Qed.

Lemma is_whitespace_lower ws : is_whitespace ws → is_whitespace (lower ws).
Proof.
  intros Hws. unfold lower. apply Forall_fmap.
  eapply Forall_impl; [exact Hws |].
  intros c Hc. cbn. by rewrite isspace_lower_char.
Qed.

Lemma spaced_lower tokens :
  lower (spaced tokens) = spaced (prod_map lower lower <$> tokens).
Proof.
  induction tokens as [|[tok ws] rest IH]; [done |].
  cbn [spaced fmap list_fmap prod_map fst snd].
  by rewrite !lower_app, IH.
Qed.

Lemma separated_lower tokens :
  separated tokens → separated (prod_map lower lower <$> tokens).
Proof.
  induction tokens as [|[tok ws] rest IH]; [done |].
  intros (Htok & Hws & Hlast & Hsep).
  cbn [separated fmap list_fmap prod_map fst snd]. split; [|split; [|split]].
  - by apply is_token_lower.
  - by apply is_whitespace_lower.
  - intros Hne. destruct rest; [done |]. destruct ws; [|done].
    by destruct Hlast.
  - by apply IH.
Qed.

(** X24: for a term laid out as tokens with whitespace around and
    between them, the translation is the lowercased token when there is
    exactly one, and otherwise the lowercased tokens, each stripped of the
    quotes at its ends, joined by single spaces: the whitespace of the
    term does not matter. *)
Theorem _cql2cqp_tokens ws0 tokens :
  is_whitespace ws0 → separated tokens →
  _cql2cqp {| parsed_query_root := CQLSearchClause (ws0 ++ spaced tokens) |}
  = Return (match tokens with
            | [(tok, _)] => lower tok
            | _ => join (s " ") (strip quotes <$> (lower <$> tokens.*1))
            end).
Proof.
  intros Hws Hsep. unfold _cql2cqp. cbn [parsed_query_root].
  rewrite lower_app, spaced_lower.
  rewrite split_spaced; [|by apply is_whitespace_lower|by apply separated_lower].
  destruct tokens as [|[tok ws] [|[tok' ws'] rest]]; [done | done |].
  cbn [fmap list_fmap prod_map fst snd]. do 4 f_equal.
  rewrite <- !list_fmap_compose. by apply list_fmap_ext.
Qed.

Lemma split_from_chars (P : ascii → Prop) text : ∀ cur,
  Forall P cur → Forall P text → Forall (Forall P) (split_from cur text).
Proof.
  induction text as [|c text IH]; intros cur Hcur Htext.
  - cbn [split_from]. destruct cur as [|a cur].
    + apply Forall_nil_2.
    + by apply Forall_singleton.
  - inversion Htext as [|? ? Hc Htext']; subst. cbn [split_from].
    destruct (isspace c).
    + destruct cur; [by apply IH |].
      constructor; [done | by apply IH].
    + apply IH; [|done]. apply Forall_app. by split; [|repeat constructor].
Qed.

Lemma lstrip_chars (P : ascii → Prop) chars text :
  Forall P text → Forall P (lstrip chars text).
Proof.
  induction 1 as [|c text Hc Htext IH]; [done |]. cbn [lstrip].
  destruct (char_in c chars); [done | by constructor].
Qed.

Lemma strip_chars (P : ascii → Prop) chars text :
  Forall P text → Forall P (strip chars text).
Proof.
  intros H. unfold strip, rstrip. apply Forall_reverse, lstrip_chars.
  by apply Forall_reverse, lstrip_chars.
Qed.

Lemma join_chars (P : ascii → Prop) sep parts :
  Forall P sep → Forall (Forall P) parts → Forall P (join sep parts).
Proof.
  intros Hsep. induction 1 as [|x parts Hx Hparts IH]; [done |].
  cbn [join]. destruct parts; [done |].
  apply Forall_app. split; [done |]. apply Forall_app. by split.
Qed.

(** X25: the translation of a search clause is lowercase: lowering it
    again changes nothing. *)
Theorem _cql2cqp_lowercase term query :
  _cql2cqp {| parsed_query_root := CQLSearchClause term |} = Return query →
  lower query = query.
Proof.
  intros Hq.
  assert (Forall (λ c, lower_char c = c) query) as Hall.
  { assert (Forall (Forall (λ c, lower_char c = c)) (split (lower term)))
      as Htok.
    { apply split_from_chars; [done |]. unfold lower. apply Forall_fmap.
      apply Forall_true. intros c. cbn. apply lower_char_idemp. }
    revert Hq. unfold _cql2cqp. cbn [parsed_query_root].
    destruct (split (lower term)) as [|t0 [|t1 rest]] eqn:Hs.
    - by intros [= <-].
    - intros [= <-]. by inversion Htok.
    - intros Hq.
      assert (query = join (s " ") (strip quotes <$> t0 :: t1 :: rest)) as ->
        by (by injection Hq).
      apply join_chars; [by repeat constructor |].
      apply Forall_fmap. eapply Forall_impl; [exact Htok |].
      intros t Ht. by apply strip_chars. }
  clear Hq. unfold lower. induction Hall as [|c q Hc _ IH]; [done |].
  rewrite fmap_cons. by f_equal.
Qed.

End TranslateMore.

(** X24 on two words with whitespace around them. *)
Lemma _cql2cqp_tokens_witness :
  _cql2cqp {| parsed_query_root :=
                CQLSearchClause
                  (s "  " ++ spaced [(s "Cat", s "   "); (s "'Dog'", s " ")]) |}
  = Return (s "cat dog").
Proof.
  apply (_cql2cqp_tokens (s "  ") [(s "Cat", s "   "); (s "'Dog'", s " ")]).
  - repeat constructor.
  - cbn [separated]. unfold is_token, is_whitespace.
    repeat split; try discriminate; repeat constructor.
Defined.

(** X25 on two capitalised words. *)
Lemma _cql2cqp_lowercase_witness :
  PyStr.lower (s "cat dog") = s "cat dog".
Proof.
  apply (_cql2cqp_lowercase (s "Cat Dog") (s "cat dog")). reflexivity.
Defined.

(** ** Marker pairs in order are not enough *)

(** C8 as stated fails: [text_collision] holds exactly one start marker,
    at position 6, and exactly one end marker, after it at position 26,
    between pieces that spell no marker; yet the span returned for it is
    [(6, 0)], whose start lies beyond its end. *)
Lemma write_record_hits_spans_valid_counterexample :
  pairs_in_order Sample2.text_collision
  ∧ find marker_s Sample2.text_collision = Some 6%nat
  ∧ contains marker_s (drop 7 Sample2.text_collision) = false
  ∧ find marker_e Sample2.text_collision = Some 26%nat
  ∧ contains marker_e (drop 27 Sample2.text_collision) = false
  ∧ write_record_hits Sample2.text_collision
    = Some (Return (marker_e, [(6, 0)%nat]))
  ∧ ¬ Forall (span_valid marker_e) [(6, 0)%nat].
Proof.
  split.
  { exists (s "{{{#!H"), [(s "LE!#}}}", [])]. split; [reflexivity |].
    repeat constructor. }
  repeat split; try (vm_compute; reflexivity).
  intros Hall. apply Forall_cons in Hall as [(_ & Hle & _) _].
  cbn in Hle. lia.
Qed.
